(** * Declarative route system: middleware-chain composition, validation, mounting

    Shallow embedding of the [DeclarativeRouter] class of the declarative
    route system (route-builder helper): [registerMiddleware],
    [buildMiddlewareChain], [applyToExpress], [applyToHono] and [validate].

    - JavaScript arrays of strings are [list string]; optional fields
      ([enabled?], [disabled?], [roles?], [excludeRoles?]) are [option]s.
      An array is truthy even when empty, so [if (route.roles)] tests
      presence ([Some _]), not non-emptiness.
    - [Map<string, Function>] is a [gmap string Function].
    - [throw new Error(msg)] is the completion [Throw msg]; mutations done
      before a throw stay in the heap.
    - The routing surface handed to the apply step is a mutable object
      living in the heap, addressed by a location; it is modelled as a
      recording surface that logs every [router[method](path, ...chain,
      handler)] call in order.
    - The Express and Hono project generators emit a copy of this class
      as text.  Its [buildMiddlewareChain] is the same, statement for
      statement; the emitted copy names handlers by ['controller.method']
      strings and resolves them per route (module [Emitted] below, with
      the legacy [RouteBuilder] and three generated middleware
      functions). *)

From stdpp Require Import gmap strings list pretty.
From Stdlib Require Import Ascii.

(** ** Values *)

(** A function object, identified by its reference. *)
Inductive Function := FnRef (id : nat).

#[global] Instance Function_eq_dec : EqDecision Function.
Proof. solve_decision. Defined.

(** What a [handler] field may hold at run time.  The declared type is
    [Function], but [validate] inspects [typeof route.handler]. *)
Inductive Value :=
| VFunction (f : Function)
| VUndefined
| VString (s : string)
| VObject.

#[global] Instance Value_eq_dec : EqDecision Value.
Proof. solve_decision. Defined.

Definition typeof (v : Value) : string :=
  match v with
  | VFunction _ => "function"
  | VUndefined => "undefined"
  | VString _ => "string"
  | VObject => "object"
  end.

(** An entry of a computed chain: either a callable fetched from the
    registry, or the value returned by calling the ['roleCheck'] factory
    on a role array, [(roleMiddleware as any)(roles)]. *)
Inductive Middleware :=
| Registered (f : Function)
| Invoked (factory : Function) (roles : list string).

#[global] Instance Middleware_eq_dec : EqDecision Middleware.
Proof. solve_decision. Defined.

(** ** METHODS / HttpMethod *)

Inductive HttpMethod := GET | POST | PUT | DELETE | PATCH.

#[global] Instance HttpMethod_eq_dec : EqDecision HttpMethod.
Proof. solve_decision. Defined.

Definition METHODS (m : HttpMethod) : string :=
  match m with
  | GET => "GET"
  | POST => "POST"
  | PUT => "PUT"
  | DELETE => "DELETE"
  | PATCH => "PATCH"
  end.

(** [String.prototype.toLowerCase] on the ASCII range. *)
Definition lowerChar (c : ascii) : ascii :=
  let n := nat_of_ascii c in
  if (65 <=? n)%nat && (n <=? 90)%nat then ascii_of_nat (n + 32) else c.

Fixpoint toLowerCase (s : string) : string :=
  match s with
  | EmptyString => EmptyString
  | String c rest => String (lowerChar c) (toLowerCase rest)
  end.

(** ** RouteDefinition, RouteConfig *)

Record RouteDefinition := {
  method : HttpMethod;
  path : string;
  handler : Value;
  enabled : option (list string);
  disabled : option (list string);
  roles : option (list string);
  excludeRoles : option (list string)
}.

Record RouteConfig := {
  defaultMiddlewares : list string;
  defaultRoles : list string;
  routes : list RouteDefinition
}.

(** ** The object, the heap and the routing surface *)

Record DeclarativeRouter := {
  middlewareRegistry : gmap string Function;
  config : RouteConfig
}.

(** One call [router[method](path, ...middlewares, handler)]. *)
Record Registration := {
  reg_method : string;
  reg_path : string;
  reg_chain : list Middleware;
  reg_handler : Value
}.

Abbreviation loc := nat.

(** [this] is the router object; [surfaces] maps each routing-surface
    object to the calls it has received, oldest first; [chainBuilds] is a
    ghost log of the entries into [buildMiddlewareChain]. *)
Record Heap := {
  this : DeclarativeRouter;
  surfaces : gmap loc (list Registration);
  chainBuilds : list RouteDefinition
}.

(** ** Completions and the method monad *)

Inductive Completion (A : Type) :=
| Normal (a : A)
| Throw (message : string).
Arguments Normal {A} a.
Arguments Throw {A} message.

Definition M (A : Type) : Type := Heap → Completion A * Heap.

#[global] Instance M_ret : MRet M := λ A a h, (Normal a, h).

#[global] Instance M_bind : MBind M := λ A B f m h,
  match m h with
  | (Normal a, h') => f a h'
  | (Throw e, h') => (Throw e, h')
  end.

Definition throw {A} (message : string) : M A := λ h, (Throw message, h).
Definition getThis : M DeclarativeRouter := λ h, (Normal (this h), h).
Definition setThis (t : DeclarativeRouter) : M unit := λ h,
  (Normal tt, {| this := t; surfaces := surfaces h; chainBuilds := chainBuilds h |}).

(** Ghost step taken on entry into the chain builder. *)
Definition enterChainBuilder (route : RouteDefinition) : M unit := λ h,
  (Normal tt, {| this := this h; surfaces := surfaces h;
                 chainBuilds := chainBuilds h ++ [route] |}).

(** [router[method](path, ...middlewares, handler)] on a recording surface. *)
Definition callRoute (router : loc) (meth pth : string)
    (middlewares : list Middleware) (hdl : Value) : M unit := λ h,
  let call := {| reg_method := meth; reg_path := pth;
                 reg_chain := middlewares; reg_handler := hdl |} in
  (Normal tt, {| this := this h;
                 surfaces := <[router := surfaces h !!! router ++ [call]]> (surfaces h);
                 chainBuilds := chainBuilds h |}).

(** ** registerMiddleware *)

(** [this.middlewareRegistry.set(name, middleware); return this]: the
    returned reference is the heap's [this]. *)
Definition registerMiddleware (name : string) (middleware : Function) : M unit :=
  t ← getThis;
  setThis {| middlewareRegistry := <[name := middleware]> (middlewareRegistry t);
             config := config t |}.

(** ** buildMiddlewareChain *)

(** [a.filter(x => !others.includes(x))] *)
Definition withoutNames (others : list string) (a : list string) : list string :=
  filter (λ x, x ∉ others) a.

(** Value of the local [middlewares] when the resolution loop starts.
    [[...defaultMiddlewares]] copies the array, so neither [filter] nor
    [push] touches the config; on immutable lists the copy is the list
    itself and [push(...route.enabled)] is [++]. *)
Definition middlewareNames (cfg : RouteConfig) (route : RouteDefinition) : list string :=
  let middlewares := defaultMiddlewares cfg in
  let middlewares :=
    match disabled route with
    | Some d => withoutNames d middlewares
    | None => middlewares
    end in
  match enabled route with
  | Some e => middlewares ++ e
  | None => middlewares
  end.

(** Value of the local [roles] when the role test [roles.length > 0] runs.
    [if (route.roles)] holds for every present array, also the empty one. *)
Definition activeRoles (cfg : RouteConfig) (route : RouteDefinition) : list string :=
  let rs := defaultRoles cfg in
  let rs :=
    match excludeRoles route with
    | Some x => withoutNames x rs
    | None => rs
    end in
  match roles route with
  | Some r => r
  | None => rs
  end.

Definition notRegistered (middlewareName : string) : string :=
  "Middleware '" +:+ middlewareName +:+ "' not registered".

(** [for (const middlewareName of middlewares) { ... chain.push(middleware) }]
    Registry values are function objects, hence truthy: [!middleware]
    holds exactly when [get] finds no entry. *)
Fixpoint resolveNames (registry : gmap string Function)
    (middlewares : list string) (chain : list Middleware) : M (list Middleware) :=
  match middlewares with
  | [] => mret chain
  | middlewareName :: rest =>
      match registry !! middlewareName with
      | None => throw (notRegistered middlewareName)
      | Some middleware => resolveNames registry rest (chain ++ [Registered middleware])
      end
  end.

(** The role step: [roles.length > 0], then [if (roleMiddleware)], which
    has no [else] branch. *)
Definition buildMiddlewareChain (route : RouteDefinition) : M (list Middleware) :=
  enterChainBuilder route;;
  t ← getThis;
  let middlewares := middlewareNames (config t) route in
  let rs := activeRoles (config t) route in
  chain ← resolveNames (middlewareRegistry t) middlewares [];
  if (0 <? length rs)%nat then
    match middlewareRegistry t !! "roleCheck" with
    | Some roleMiddleware => mret (chain ++ [Invoked roleMiddleware rs])
    | None => mret chain
    end
  else mret chain.

(** ** applyToExpress / applyToHono *)

(** [for (const route of this.config.routes) { ... }], the body both
    methods share. *)
Fixpoint applyRoutes (router : loc) (rs : list RouteDefinition) : M unit :=
  match rs with
  | [] => mret tt
  | route :: rest =>
      middlewares ← buildMiddlewareChain route;
      let meth := toLowerCase (METHODS (method route)) in
      callRoute router meth (path route) middlewares (handler route);;
      applyRoutes router rest
  end.

Definition applyToExpress (router : loc) : M loc :=
  t ← getThis;
  applyRoutes router (routes (config t));;
  mret router.

Definition applyToHono (app : loc) : M loc :=
  t ← getThis;
  applyRoutes app (routes (config t));;
  mret app.

(** ** validate *)

Record ValidationResult := {
  valid : bool;
  errors : list string
}.

Definition handlerError (route : RouteDefinition) : string :=
  "Route " +:+ METHODS (method route) +:+ " " +:+ path route +:+ ": Handler is not a function".

Definition middlewareError (route : RouteDefinition) (mw : string) : string :=
  "Route " +:+ METHODS (method route) +:+ " " +:+ path route +:+ ": Middleware '" +:+ mw
    +:+ "' not registered".

(** [for (const mw of allMiddlewares) { if (!registry.has(mw)) errors.push(...) }] *)
Fixpoint checkMiddlewares (registry : gmap string Function) (route : RouteDefinition)
    (allMiddlewares : list string) (errs : list string) : list string :=
  match allMiddlewares with
  | [] => errs
  | mw :: rest =>
      let errs :=
        if bool_decide (is_Some (registry !! mw)) then errs
        else errs ++ [middlewareError route mw] in
      checkMiddlewares registry route rest errs
  end.

(** [route.enabled || []] *)
Definition orEmpty (o : option (list string)) : list string :=
  match o with
  | Some l => l
  | None => []
  end.

Fixpoint validateRoutes (t : DeclarativeRouter) (rs : list RouteDefinition)
    (errs : list string) : list string :=
  match rs with
  | [] => errs
  | route :: rest =>
      let errs :=
        if bool_decide (typeof (handler route) ≠ "function")
        then errs ++ [handlerError route] else errs in
      let allMiddlewares := defaultMiddlewares (config t) ++ orEmpty (enabled route) in
      let errs := checkMiddlewares (middlewareRegistry t) route allMiddlewares errs in
      validateRoutes t rest errs
  end.

Definition validate : M ValidationResult :=
  t ← getThis;
  let errs := validateRoutes t (routes (config t)) [] in
  mret {| valid := bool_decide (length errs = 0%nat); errors := errs |}.

(** * Vocabulary of the statements *)

(** ** Registry lookups *)

(** Every name of the list has a registry entry. *)
Definition resolvable (registry : gmap string Function) (names : list string) : Prop :=
  Forall (λ n, is_Some (registry !! n)) names.

#[global] Instance resolvable_dec registry names : Decision (resolvable registry names).
Proof. unfold resolvable. apply _. Defined.

(** The callables the registry holds for the names, in the order of the names. *)
Definition resolved (registry : gmap string Function) (names : list string)
    : list Middleware :=
  omap (λ n, Registered <$> registry !! n) names.

(** The first name of the list without a registry entry. *)
Fixpoint firstUnregistered (registry : gmap string Function) (names : list string)
    : option string :=
  match names with
  | [] => None
  | n :: rest =>
      match registry !! n with
      | None => Some n
      | Some _ => firstUnregistered registry rest
      end
  end.

(** ** Chains *)

(** A chain entry produced by calling a role-check factory. *)
Definition isRoleEntry (m : Middleware) : Prop :=
  match m with
  | Invoked _ _ => True
  | Registered _ => False
  end.

#[global] Instance isRoleEntry_dec m : Decision (isRoleEntry m).
Proof. destruct m; simpl; apply _. Defined.

(** What the role step adds to the chain: one entry when the active role
    set is non-empty and a ['roleCheck'] factory is registered. *)
Definition roleEntry (t : DeclarativeRouter) (route : RouteDefinition)
    : list Middleware :=
  match activeRoles (config t) route, middlewareRegistry t !! "roleCheck" with
  | (_ :: _) as rs, Some factory => [Invoked factory rs]
  | _, _ => []
  end.

(** Every name of the route's chain is registered: the builder returns. *)
Definition buildable (t : DeclarativeRouter) (route : RouteDefinition) : Prop :=
  resolvable (middlewareRegistry t) (middlewareNames (config t) route).

#[global] Instance buildable_dec t route : Decision (buildable t route).
Proof. unfold buildable. apply _. Defined.

(** ** Heaps and registrations *)

(** Heap after running a method, whatever its completion. *)
Definition exec {A} (m : M A) (h : Heap) : Heap := (m h).2.

Definition afterBuild (route : RouteDefinition) (h : Heap) : Heap :=
  {| this := this h; surfaces := surfaces h; chainBuilds := chainBuilds h ++ [route] |}.

(** The heap [h'] differs from [h] by [calls] appended to the log of the
    surface [router] and [built] appended to the chain-builder log. *)
Definition mounted (router : loc) (h h' : Heap)
    (calls : list Registration) (built : list RouteDefinition) : Prop :=
  this h' = this h
  ∧ surfaces h' !!! router = surfaces h !!! router ++ calls
  ∧ (∀ l, l ≠ router → surfaces h' !! l = surfaces h !! l)
  ∧ chainBuilds h' = chainBuilds h ++ built.

(** A call records the route: lower-cased method, path and handler as
    declared, and the chain the builder returns for the route. *)
Definition registers (t : DeclarativeRouter) (route : RouteDefinition)
    (call : Registration) : Prop :=
  reg_method call = toLowerCase (METHODS (method route))
  ∧ reg_path call = path route
  ∧ reg_handler call = handler route
  ∧ ∀ h, this h = t → (buildMiddlewareChain route h).1 = Normal (reg_chain call).

Definition withThis (t : DeclarativeRouter) (h : Heap) : Heap :=
  {| this := t; surfaces := surfaces h; chainBuilds := chainBuilds h |}.

(** ** Validation reports *)

(** The names [validate] looks up for a route: [allMiddlewares]. *)
Definition allMiddlewares (cfg : RouteConfig) (route : RouteDefinition) : list string :=
  defaultMiddlewares cfg ++ orEmpty (enabled route).

(** The names of a list without a registry entry, duplicates kept. *)
Definition unregistered (registry : gmap string Function) (names : list string)
    : list string :=
  filter (λ mw, registry !! mw = None) names.

(** The errors one route contributes. *)
Definition routeErrors (t : DeclarativeRouter) (route : RouteDefinition) : list string :=
  (if decide (typeof (handler route) = "function") then [] else [handlerError route])
  ++ (middlewareError route <$>
        unregistered (middlewareRegistry t) (allMiddlewares (config t) route)).

(** Number of unresolvable references of a route: its handler when it is
    not a function, and each listed middleware name without registry entry. *)
Definition unresolvedReferences (t : DeclarativeRouter) (route : RouteDefinition) : nat :=
  (if decide (typeof (handler route) = "function") then 0 else 1)
  + length (unregistered (middlewareRegistry t) (allMiddlewares (config t) route)).

(** ** Name lists *)

(** Number of occurrences of a name in a list. *)
Definition occurrences (name : string) (l : list string) : nat :=
  length (filter (λ x, x = name) l).

(** A list with every occurrence of one name removed. *)
Fixpoint removeName (name : string) (l : list string) : list string :=
  match l with
  | [] => []
  | x :: rest => if decide (x = name) then removeName name rest else x :: removeName name rest
  end.

(** The name list in the words of the specification: start from the
    defaults, remove every disabled name, then append the extras. *)
Definition specifiedNames (defaults disabledDefaults enabledExtra : list string)
    : list string :=
  foldr removeName defaults disabledDefaults ++ enabledExtra.

(** ** Configs with some settings removed *)

(** A route, and a config, with every role setting removed. *)
Definition withoutRoles (route : RouteDefinition) : RouteDefinition :=
  {| method := method route; path := path route; handler := handler route;
     enabled := enabled route; disabled := disabled route;
     roles := None; excludeRoles := None |}.

Definition configWithoutRoles (cfg : RouteConfig) : RouteConfig :=
  {| defaultMiddlewares := defaultMiddlewares cfg; defaultRoles := [];
     routes := withoutRoles <$> routes cfg |}.

(** A config with every [disabled] list removed. *)
Definition withoutDisabled (route : RouteDefinition) : RouteDefinition :=
  {| method := method route; path := path route; handler := handler route;
     enabled := enabled route; disabled := None;
     roles := roles route; excludeRoles := excludeRoles route |}.

Definition configWithoutDisabled (cfg : RouteConfig) : RouteConfig :=
  {| defaultMiddlewares := defaultMiddlewares cfg; defaultRoles := defaultRoles cfg;
     routes := withoutDisabled <$> routes cfg |}.

(** ** The four statements that the code does not satisfy *)

(** The reading of C1: the chain ends with the registered role-check
    factory applied to the active roles. *)
Definition roleCheckIsLast (h : Heap) (route : RouteDefinition) : Prop :=
  ∃ factory named,
    middlewareRegistry (this h) !! "roleCheck" = Some factory
    ∧ (buildMiddlewareChain route h).1 =
        Normal (named ++ [Invoked factory (activeRoles (config (this h)) route)]).

(** The reading of C2 (its registration part): on a config that fails
    validation the apply step throws and leaves the surface untouched. *)
Definition applyRefusesInvalid (h : Heap) (router : loc) : Prop :=
  ∀ report, (validate h).1 = Normal report → valid report = false →
    (∃ e, (applyToExpress router h).1 = Throw e)
    ∧ surfaces (exec (applyToExpress router) h) !!! router = surfaces h !!! router.

(** The reading of C3: a config with some non-empty role set and no
    ['roleCheck'] entry is never reported valid. *)
Definition roleCheckEnforced (h : Heap) : Prop :=
  (defaultRoles (config (this h)) ≠ []
   ∨ ∃ route, route ∈ routes (config (this h))
              ∧ activeRoles (config (this h)) route ≠ []) →
  middlewareRegistry (this h) !! "roleCheck" = None →
  ∀ report, (validate h).1 = Normal report → valid report = false.

(** The reading of C8: the apply step returns the surface it was given,
    having appended one call per route of the table, in order, and having
    entered the chain builder exactly once per route. *)
Definition applyMountsEveryRoute (h : Heap) (router : loc) : Prop :=
  ∃ h' calls,
    applyToExpress router h = (Normal router, h')
    ∧ surfaces h' !!! router = surfaces h !!! router ++ calls
    ∧ chainBuilds h' = chainBuilds h ++ routes (config (this h))
    ∧ Forall2 (registers (this h)) (routes (config (this h))) calls.

(** * Concrete routers *)

(** [new DeclarativeRouter(config)] in an otherwise empty heap. *)
Definition constructor (cfg : RouteConfig) : DeclarativeRouter :=
  {| middlewareRegistry := ∅; config := cfg |}.

Definition freshHeap (cfg : RouteConfig) : Heap :=
  {| this := constructor cfg; surfaces := ∅; chainBuilds := [] |}.

Definition logging : Function := FnRef 1.
Definition auth : Function := FnRef 2.
Definition roleMiddleware : Function := FnRef 3.

Definition plainRoute (m : HttpMethod) (p : string) (f : nat) : RouteDefinition :=
  {| method := m; path := p; handler := VFunction (FnRef f);
     enabled := None; disabled := None; roles := None; excludeRoles := None |}.

(** [POST /admin] with [roles: ['admin']] and [enabled: ['auth']]. *)
Definition adminRoute : RouteDefinition :=
  {| method := POST; path := "/admin"; handler := VFunction (FnRef 11);
     enabled := Some ["auth"]; disabled := None;
     roles := Some ["admin"]; excludeRoles := None |}.

(** [GET /public] with [disabled: ['logging']]. *)
Definition publicRoute : RouteDefinition :=
  {| method := GET; path := "/public"; handler := VFunction (FnRef 10);
     enabled := None; disabled := Some ["logging"];
     roles := None; excludeRoles := None |}.

Definition scenarioConfig : RouteConfig :=
  {| defaultMiddlewares := ["logging"]; defaultRoles := [];
     routes := [publicRoute; adminRoute] |}.

(** Registry [{logging, auth}]: no ['roleCheck'] entry. *)
Definition scenarioWithoutRoleCheck : Heap :=
  exec (registerMiddleware "logging" logging;;
        registerMiddleware "auth" auth) (freshHeap scenarioConfig).

(** Registry [{logging, auth, roleCheck}]. *)
Definition scenarioWithRoleCheck : Heap :=
  exec (registerMiddleware "roleCheck" roleMiddleware) scenarioWithoutRoleCheck.

(** Registry [{logging}]; the second and the third route each enable a
    middleware that was never registered. *)
Definition brokenConfig : RouteConfig :=
  {| defaultMiddlewares := ["logging"]; defaultRoles := [];
     routes :=
       [ plainRoute GET "/health" 20;
         {| method := POST; path := "/orders"; handler := VFunction (FnRef 21);
            enabled := Some ["rateLimit"]; disabled := None;
            roles := None; excludeRoles := None |};
         {| method := PUT; path := "/orders"; handler := VFunction (FnRef 22);
            enabled := Some ["audit"]; disabled := None;
            roles := None; excludeRoles := None |} ] |}.

Definition brokenRouter : Heap :=
  exec (registerMiddleware "logging" logging) (freshHeap brokenConfig).

(** [defaultMiddlewares = [A, B]], [disabled = [A]], [enabled = [X, Y]]. *)
Definition enableAfterDisable : RouteDefinition :=
  {| method := GET; path := "/items"; handler := VFunction (FnRef 30);
     enabled := Some ["X"; "Y"]; disabled := Some ["A"];
     roles := None; excludeRoles := None |}.

Definition lettersRouter : Heap :=
  exec (registerMiddleware "A" (FnRef 41);; registerMiddleware "B" (FnRef 42);;
        registerMiddleware "X" (FnRef 43);; registerMiddleware "Y" (FnRef 44))
       (freshHeap {| defaultMiddlewares := ["A"; "B"]; defaultRoles := [];
                     routes := [enableAfterDisable] |}).

(** [defaultRoles = [admin]], [roles = [editor]], [excludeRoles = [admin]]. *)
Definition editorRoute : RouteDefinition :=
  {| method := PATCH; path := "/posts"; handler := VFunction (FnRef 31);
     enabled := None; disabled := None;
     roles := Some ["editor"]; excludeRoles := Some ["admin"] |}.

Definition adminDefaultsRouter (rs : list RouteDefinition) : Heap :=
  exec (registerMiddleware "roleCheck" roleMiddleware)
       (freshHeap {| defaultMiddlewares := []; defaultRoles := ["admin"]; routes := rs |}).

(** [defaultMiddlewares = [logging, auth]]; the route disables [auth]
    and enables [auth] and [logging]. *)
Definition overlappingRoute : RouteDefinition :=
  {| method := DELETE; path := "/cache"; handler := VFunction (FnRef 32);
     enabled := Some ["auth"; "logging"]; disabled := Some ["auth"];
     roles := None; excludeRoles := None |}.

Definition overlappingRouter : Heap :=
  exec (registerMiddleware "logging" logging;; registerMiddleware "auth" auth)
       (freshHeap {| defaultMiddlewares := ["logging"; "auth"]; defaultRoles := [];
                     routes := [overlappingRoute] |}).

(** [roles: []] on a router whose default roles are [[admin]]. *)
Definition emptyRolesRoute : RouteDefinition :=
  {| method := GET; path := "/open"; handler := VFunction (FnRef 33);
     enabled := None; disabled := None;
     roles := Some []; excludeRoles := None |}.

Definition omittedRolesRoute : RouteDefinition := plainRoute GET "/closed" 34.

(** Default [metrics] is not registered; the only route disables it. *)
Definition disabledDefaultRoute : RouteDefinition :=
  {| method := GET; path := "/ping"; handler := VFunction (FnRef 35);
     enabled := None; disabled := Some ["metrics"];
     roles := None; excludeRoles := None |}.

Definition disabledDefaultRouter : Heap :=
  exec (registerMiddleware "logging" logging)
       (freshHeap {| defaultMiddlewares := ["logging"; "metrics"]; defaultRoles := [];
                     routes := [disabledDefaultRoute] |}).

(** Three routes, each enabling one middleware that is not registered. *)
Definition threeMissing : RouteConfig :=
  {| defaultMiddlewares := ["logging"]; defaultRoles := [];
     routes :=
       [ {| method := GET; path := "/a"; handler := VFunction (FnRef 51);
            enabled := Some ["cache"]; disabled := None;
            roles := None; excludeRoles := None |};
         {| method := POST; path := "/b"; handler := VFunction (FnRef 52);
            enabled := Some ["csrf"]; disabled := None;
            roles := None; excludeRoles := None |};
         {| method := DELETE; path := "/c"; handler := VFunction (FnRef 53);
            enabled := Some ["audit"]; disabled := None;
            roles := None; excludeRoles := None |} ] |}.

Definition threeMissingRouter : Heap :=
  exec (registerMiddleware "logging" logging) (freshHeap threeMissing).

(** * The rest of the route system *)

(** ** Exceptions without a heap *)

#[global] Instance Completion_ret : MRet Completion := λ A a, Normal a.

#[global] Instance Completion_bind : MBind Completion := λ A B f c,
  match c with
  | Normal a => f a
  | Throw e => Throw e
  end.

(** ** String built-ins *)

(** [s.split(sep)] for a one-character separator: always at least one
    piece; [n] separators give [n + 1] pieces, empty ones included. *)
Fixpoint split (sep : ascii) (s : string) : list string :=
  match s with
  | EmptyString => [EmptyString]
  | String c rest =>
      if decide (c = sep) then EmptyString :: split sep rest
      else match split sep rest with
           | piece :: pieces => String c piece :: pieces
           | [] => [String c EmptyString]
           end
  end.

(** JavaScript truthiness of the values of this file. *)
Definition truthy (v : Value) : bool :=
  match v with
  | VFunction _ => true
  | VUndefined => false
  | VString s => bool_decide (s ≠ EmptyString)
  | VObject => true
  end.

(** ** RouteBuilder, the legacy builder emitted beside DeclarativeRouter *)

Module RouteBuilder.

Record RouteMiddlewareConfig := {
  include : option (list string);
  exclude : option (list string);
  roles : option (list string);
  excludeRole : option (list string)
}.

(** The fields of the class. *)
Record t := {
  defaultMiddlewares : list string;
  defaultRoles : list string;
  middlewareRegistry : gmap string Function
}.

(** [constructor(defaultMiddlewares = [], defaultRoles = [])]: an
    omitted argument takes its default. *)
Definition constructor (defaultMiddlewares defaultRoles : option (list string)) : t :=
  {| defaultMiddlewares := orEmpty defaultMiddlewares;
     defaultRoles := orEmpty defaultRoles;
     middlewareRegistry := ∅ |}.

(** [this.middlewareRegistry.set(name, middleware)]; returns nothing. *)
Definition registerMiddleware (name : string) (middleware : Function) (this : t) : t :=
  {| defaultMiddlewares := defaultMiddlewares this;
     defaultRoles := defaultRoles this;
     middlewareRegistry := <[name := middleware]> (middlewareRegistry this) |}.

(** The resolution loop of [buildMiddlewareChain]. *)
Fixpoint resolve (registry : gmap string Function) (middlewares : list string)
    (chain : list Middleware) : Completion (list Middleware) :=
  match middlewares with
  | [] => mret chain
  | middlewareName :: rest =>
      match registry !! middlewareName with
      | None => Throw (notRegistered middlewareName)
      | Some middleware => resolve registry rest (chain ++ [Registered middleware])
      end
  end.

(** [buildMiddlewareChain(config?)]: all four overrides sit inside
    [if (config)]. *)
Definition buildMiddlewareChain (config : option RouteMiddlewareConfig) (this : t)
    : Completion (list Middleware) :=
  let middlewares := defaultMiddlewares this in
  let rs := defaultRoles this in
  let '(middlewares, rs) :=
    match config with
    | Some config =>
        let middlewares :=
          match exclude config with
          | Some x => withoutNames x middlewares
          | None => middlewares
          end in
        let middlewares :=
          match include config with
          | Some i => middlewares ++ i
          | None => middlewares
          end in
        let rs :=
          match excludeRole config with
          | Some x => withoutNames x rs
          | None => rs
          end in
        let rs :=
          match roles config with
          | Some r => r
          | None => rs
          end in
        (middlewares, rs)
    | None => (middlewares, rs)
    end in
  chain ← resolve (middlewareRegistry this) middlewares [];
  if (0 <? length rs)%nat then
    match middlewareRegistry this !! "roleCheck" with
    | Some roleMiddleware => mret (chain ++ [Invoked roleMiddleware rs])
    | None => mret chain
    end
  else mret chain.

(** [route(handler, config?)] returns [[...middlewares, handler]]; the
    handler is the function object it was given. *)
Definition route (handler : Function) (config : option RouteMiddlewareConfig) (this : t)
    : Completion (list Middleware) :=
  middlewares ← buildMiddlewareChain config this;
  mret (middlewares ++ [Registered handler]).

End RouteBuilder.

(** The route definition that carries the same overrides as a legacy
    config ([include] as [enabled], [exclude] as [disabled], [excludeRole]
    as [excludeRoles]); an omitted config carries none. *)
Definition routeOfLegacyConfig (m : HttpMethod) (p : string) (h : Value)
    (config : option RouteBuilder.RouteMiddlewareConfig) : RouteDefinition :=
  {| method := m; path := p; handler := h;
     enabled := config ≫= RouteBuilder.include;
     disabled := config ≫= RouteBuilder.exclude;
     roles := config ≫= RouteBuilder.roles;
     excludeRoles := config ≫= RouteBuilder.excludeRole |}.

(** The declarative router with the defaults and the registry of a
    legacy builder. *)
Definition routerOfLegacy (b : RouteBuilder.t) (rs : list RouteDefinition) : DeclarativeRouter :=
  {| middlewareRegistry := RouteBuilder.middlewareRegistry b;
     config := {| defaultMiddlewares := RouteBuilder.defaultMiddlewares b;
                  defaultRoles := RouteBuilder.defaultRoles b;
                  routes := rs |} |}.

(** ** The DeclarativeRouter emitted into generated projects *)

(** The emitted class differs from the one above in its handlers: a route
    names its handler by a string ['controller.method'], and the class has
    one more field, [controllerRegistry].  Its [registerMiddleware] and
    [buildMiddlewareChain] are the ones above; the heap's [this] holds the
    two shared fields, and the controller registry is passed to the
    methods that read it.  A controller is an object, given by what a
    property read [controller[name]] returns (absent: [undefined]). *)
Module Emitted.

(** [this.controllerRegistry.set(name, controller)] *)
Definition registerController (name : string) (controller : gmap string Value)
    (controllerRegistry : gmap string (gmap string Value))
    : gmap string (gmap string Value) :=
  <[name := controller]> controllerRegistry.

Definition controllerNotRegistered (controllerName : string) : string :=
  "Controller '" +:+ controllerName +:+ "' not registered".

Definition methodNotFound (methodName controllerName : string) : string :=
  "Method '" +:+ methodName +:+ "' not found in controller '" +:+ controllerName +:+ "'".

(** [resolveHandler(handlerPath)].  The destructuring
    [[controllerName, methodName] = handlerPath.split('.')] leaves
    [methodName] undefined when there is no dot; as a property key and in
    the message that is the string [undefined].  On a value that is not a
    string the call [handlerPath.split] raises a [TypeError], with the
    message Node prints. *)
Definition resolveHandler (controllerRegistry : gmap string (gmap string Value))
    (handlerPath : Value) : M Value :=
  match handlerPath with
  | VString handlerPath =>
      let parts := split "." handlerPath in
      let controllerName := default EmptyString (parts !! 0%nat) in
      let methodName := default "undefined" (parts !! 1%nat) in
      match controllerRegistry !! controllerName with
      | None => throw (controllerNotRegistered controllerName)
      | Some controller =>
          let found := default VUndefined (controller !! methodName) in
          if truthy found then mret found
          else throw (methodNotFound methodName controllerName)
      end
  | VUndefined => throw "Cannot read properties of undefined (reading 'split')"
  | VFunction _ | VObject =>
      throw "handlerPath.split is not a function or its return value is not iterable"
  end.

(** The loop of [applyToExpress] (Express generator) and [applyToHono]
    (Hono generator): chain first, then the handler, then the call. *)
Fixpoint applyRoutes (controllerRegistry : gmap string (gmap string Value))
    (router : loc) (rs : list RouteDefinition) : M unit :=
  match rs with
  | [] => mret tt
  | route :: rest =>
      middlewares ← buildMiddlewareChain route;
      hdl ← resolveHandler controllerRegistry (handler route);
      let meth := toLowerCase (METHODS (method route)) in
      callRoute router meth (path route) middlewares hdl;;
      applyRoutes controllerRegistry router rest
  end.

Definition applyToExpress (controllerRegistry : gmap string (gmap string Value))
    (router : loc) : M loc :=
  t ← getThis;
  applyRoutes controllerRegistry router (routes (config t));;
  mret router.

Definition applyToHono (controllerRegistry : gmap string (gmap string Value))
    (app : loc) : M loc :=
  t ← getThis;
  applyRoutes controllerRegistry app (routes (config t));;
  mret app.

(** [try { this.resolveHandler(route.handler) } catch (error) { errors.push(...) }] *)
Definition checkHandler (controllerRegistry : gmap string (gmap string Value))
    (route : RouteDefinition) (errs : list string) : M (list string) := λ h,
  match resolveHandler controllerRegistry (handler route) h with
  | (Normal _, h') => (Normal errs, h')
  | (Throw message, h') =>
      (Normal (errs ++ ["Route " +:+ METHODS (method route) +:+ " " +:+ path route
                          +:+ ": " +:+ message]), h')
  end.

Fixpoint validateRoutes (controllerRegistry : gmap string (gmap string Value))
    (t : DeclarativeRouter) (rs : list RouteDefinition) (errs : list string)
    : M (list string) :=
  match rs with
  | [] => mret errs
  | route :: rest =>
      errs ← checkHandler controllerRegistry route errs;
      let allMiddlewares := defaultMiddlewares (config t) ++ orEmpty (enabled route) in
      let errs := checkMiddlewares (middlewareRegistry t) route allMiddlewares errs in
      validateRoutes controllerRegistry t rest errs
  end.

Definition validate (controllerRegistry : gmap string (gmap string Value))
    : M ValidationResult :=
  t ← getThis;
  errs ← validateRoutes controllerRegistry t (routes (config t)) [];
  mret {| valid := bool_decide (length errs = 0%nat); errors := errs |}.

End Emitted.

(** ** Middleware emitted by the Express generator *)





(** What a middleware does with a request: pass it on with [next()], or
    answer [res.status(status).json({ error })]. *)
Inductive Outcome :=
| CallNext
| Respond (status : nat) (error : string).

Module Middlewares.

(** [req.user], when truthy: [role] is its [role] property when that is
    a string. *)
Record User := { role : option string }.

(** [authMiddleware] up to [jwt.verify], which is the argument [verify]
    ([None] when it throws).  [Authenticated decoded] stands for
    [req.user = decoded; next()], where [next()] is taken to return: the
    [try] block encloses that call too. *)
Inductive AuthOutcome (D : Type) :=
| Authenticated (decoded : D)
| Rejected (status : nat) (error : string).
Arguments Authenticated {D} decoded.
Arguments Rejected {D} status error.

(** [req.headers.authorization?.split(' ')[1]] *)
Definition bearerToken (authorization : option string) : option string :=
  authorization ≫= λ a, split " " a !! 1%nat.

Definition authMiddleware {D} (verify : string → option D)
    (authorization : option string) : AuthOutcome D :=
  match bearerToken authorization with
  | None => Rejected 401 "No token provided"
  | Some token =>
      if bool_decide (token = EmptyString) then Rejected 401 "No token provided"
      else match verify token with
           | Some decoded => Authenticated decoded
           | None => Rejected 401 "Invalid token"
           end
  end.

(** [roleMiddleware(roles)] applied to a request with the given [req.user]. *)
Definition roleMiddleware (roles : list string) (user : option User) : Outcome :=
  match user with
  | None => Respond 403 "Insufficient permissions"
  | Some u =>
      match role u with
      | Some r =>
          if bool_decide (r ∈ roles) then CallNext
          else Respond 403 "Insufficient permissions"
      | None => Respond 403 "Insufficient permissions"
      end
  end.




End Middlewares.

(** ** Vocabulary for the rest of the route system *)

(** The errors a route contributes once [name] is registered. *)
Definition routeErrorsWithout (name : string) (t : DeclarativeRouter)
    (route : RouteDefinition) : list string :=
  (if decide (typeof (handler route) = "function") then [] else [handlerError route])
  ++ (middlewareError route <$>
        filter (λ mw, mw ≠ name)
          (unregistered (middlewareRegistry t) (allMiddlewares (config t) route))).

(** The character occurs in the string. *)
Fixpoint occursIn (c : ascii) (s : string) : bool :=
  match s with
  | EmptyString => false
  | String a rest => bool_decide (a = c) || occursIn c rest
  end.

(** A heap with an empty router, for reading off results that do not
    depend on the heap. *)
Definition emptyHeap : Heap :=
  {| this := {| middlewareRegistry := ∅;
                config := {| defaultMiddlewares := []; defaultRoles := [];
                             routes := [] |} |};
     surfaces := ∅; chainBuilds := [] |}.

(** How [resolveHandler] completes on a handler. *)
Definition handlerOutcome (controllerRegistry : gmap string (gmap string Value))
    (handlerPath : Value) : Completion Value :=
  (Emitted.resolveHandler controllerRegistry handlerPath emptyHeap).1.

(** The errors one route contributes to the emitted [validate]. *)
Definition emittedRouteErrors (controllerRegistry : gmap string (gmap string Value))
    (t : DeclarativeRouter) (route : RouteDefinition) : list string :=
  match handlerOutcome controllerRegistry (handler route) with
  | Normal _ => []
  | Throw message =>
      ["Route " +:+ METHODS (method route) +:+ " " +:+ path route +:+ ": " +:+ message]
  end
  ++ (middlewareError route <$>
        unregistered (middlewareRegistry t) (allMiddlewares (config t) route)).

(** The emitted apply step gets past the route: its chain builds and its
    handler resolves. *)
Definition mountable (controllerRegistry : gmap string (gmap string Value))
    (t : DeclarativeRouter) (route : RouteDefinition) : Prop :=
  buildable t route
  ∧ ∃ hdl, handlerOutcome controllerRegistry (handler route) = Normal hdl.

(** A call of the emitted apply step records the route. *)
Definition registersResolved (controllerRegistry : gmap string (gmap string Value))
    (t : DeclarativeRouter) (route : RouteDefinition) (call : Registration) : Prop :=
  reg_method call = toLowerCase (METHODS (method route))
  ∧ reg_path call = path route
  ∧ handlerOutcome controllerRegistry (handler route) = Normal (reg_handler call)
  ∧ ∀ h, this h = t → (buildMiddlewareChain route h).1 = Normal (reg_chain call).

(** ** Concrete inputs for the rest of the route system *)

(** A controller with a function, a non-empty string and an empty string. *)
Definition userController : gmap string Value :=
  {[ "list" := VFunction (FnRef 5); "title" := VString "users";
     "blank" := VString EmptyString ]}.

(** Two routes with string handlers; only the controller [user] exists. *)
Definition listUsers : RouteDefinition :=
  {| method := GET; path := "/users"; handler := VString "user.list";
     enabled := None; disabled := None; roles := None; excludeRoles := None |}.

Definition createOrder : RouteDefinition :=
  {| method := POST; path := "/orders"; handler := VString "order.create";
     enabled := None; disabled := None; roles := None; excludeRoles := None |}.

Definition emittedRouter (rs : list RouteDefinition) : Heap :=
  exec (registerMiddleware "logging" logging)
       (freshHeap {| defaultMiddlewares := ["logging"]; defaultRoles := [];
                     routes := rs |}).

Definition userControllers : gmap string (gmap string Value) :=
  Emitted.registerController "user" userController ∅.

(** A verifier that accepts the one token [good]. *)
Definition acceptGood (token : string) : option nat :=
  if bool_decide (token = "good") then Some 7 else None.


(** * Lemmas *)

(** ** The name-resolution loop *)

Lemma firstUnregistered_None registry names :
  firstUnregistered registry names = None ↔ resolvable registry names.
Proof.
  unfold resolvable. induction names as [|n names IH]; simpl.
  - split; [constructor | done].
  - destruct (registry !! n) as [f|] eqn:E.
    + rewrite IH. split.
      * intros H. constructor; [by eexists | done].
      * by intros [_ H]%Forall_cons.
    + split; [done |]. intros [[f Hf] _]%Forall_cons. congruence.
Qed.

Lemma firstUnregistered_Some registry names m :
  firstUnregistered registry names = Some m ↔
  ∃ pre post, names = pre ++ m :: post ∧ resolvable registry pre ∧ registry !! m = None.
Proof.
  unfold resolvable. revert m. induction names as [|n names IH]; intros m; simpl.
  - split; [done |]. intros ([|??] & ? & ? & _); discriminate.
  - destruct (registry !! n) as [f|] eqn:E.
    + rewrite IH. split.
      * intros (pre & post & -> & Hpre & Hm).
        exists (n :: pre), post. split_and!; [done | | done].
        constructor; [by eexists | done].
      * intros ([|n' pre] & post & Heq & Hpre & Hm); simplify_eq/=.
        exists pre, post. split_and!; [done | | done].
        by apply Forall_cons in Hpre as [_ ?].
    + split.
      * intros [= <-]. exists [], names. split_and!; [done | constructor | done].
      * intros ([|n' pre] & post & Heq & Hpre & Hm); simplify_eq/=; [done |].
        apply Forall_cons in Hpre as [[f Hf] _]. congruence.
Qed.

Lemma resolved_length registry names :
  resolvable registry names → length (resolved registry names) = length names.
Proof.
  unfold resolvable, resolved. induction 1 as [|n names [f Hf] _ IH]; simpl; [done |].
  rewrite Hf. simpl. by f_equal.
Qed.

Lemma resolved_no_role_entry registry names :
  Forall (λ m, ¬ isRoleEntry m) (resolved registry names).
Proof.
  unfold resolved. induction names as [|n names IH]; simpl; [constructor |].
  destruct (registry !! n); simpl; [constructor; [tauto | done] | done].
Qed.

Lemma resolveNames_run registry names chain h :
  resolveNames registry names chain h =
  (match firstUnregistered registry names with
   | Some m => Throw (notRegistered m)
   | None => Normal (chain ++ resolved registry names)
   end, h).
Proof.
  revert chain. induction names as [|n names IH]; intros chain; simpl.
  - by rewrite app_nil_r.
  - unfold resolved. simpl. destruct (registry !! n) as [f|]; simpl; [| done].
    rewrite IH. destruct (firstUnregistered registry names); [done |].
    by rewrite <- app_assoc.
Qed.

Lemma resolved_Forall2 registry names :
  resolvable registry names →
  Forall2 (λ n entry, ∃ f, registry !! n = Some f ∧ entry = Registered f)
          names (resolved registry names).
Proof.
  unfold resolvable, resolved. induction 1 as [|n names [f Hf] _ IH]; simpl.
  - constructor.
  - rewrite Hf. simpl. constructor; [by exists f | done].
Qed.

Lemma resolvable_subseteq registry a b :
  a ⊆ b → resolvable registry b → resolvable registry a.
Proof.
  unfold resolvable. rewrite !Forall_forall. intros Hsub Hb n Hn. by apply Hb, Hsub.
Qed.

(** ** The chain builder *)

Lemma buildMiddlewareChain_run route h :
  buildMiddlewareChain route h =
  (match firstUnregistered (middlewareRegistry (this h))
           (middlewareNames (config (this h)) route) with
   | Some m => Throw (notRegistered m)
   | None => Normal (resolved (middlewareRegistry (this h))
                       (middlewareNames (config (this h)) route)
                     ++ roleEntry (this h) route)
   end, afterBuild route h).
Proof.
  unfold buildMiddlewareChain, mbind, M_bind, enterChainBuilder, getThis. simpl.
  rewrite resolveNames_run. fold (afterBuild route h).
  destruct (firstUnregistered _ _); [done |]. simpl.
  unfold roleEntry, mret, M_ret.
  destruct (activeRoles (config (this h)) route) as [|r rs]; simpl.
  - by rewrite app_nil_r.
  - destruct (middlewareRegistry (this h) !! "roleCheck"); simpl; [done |].
    by rewrite app_nil_r.
Qed.

(** The entries of a returned chain that are not the role-check entry
    are the registered callables of [middlewareNames], in order. *)
Lemma chain_named_entries h route chain :
  (buildMiddlewareChain route h).1 = Normal chain →
  buildable (this h) route
  ∧ chain = resolved (middlewareRegistry (this h)) (middlewareNames (config (this h)) route)
            ++ roleEntry (this h) route.
Proof.
  rewrite buildMiddlewareChain_run. simpl.
  destruct (firstUnregistered _ _) eqn:E; [done |].
  apply firstUnregistered_None in E. by intros [= <-].
Qed.

Lemma roleEntry_cases t route :
  roleEntry t route = []
  ∨ ∃ factory, middlewareRegistry t !! "roleCheck" = Some factory
               ∧ activeRoles (config t) route ≠ []
               ∧ roleEntry t route = [Invoked factory (activeRoles (config t) route)].
Proof.
  unfold roleEntry. destruct (activeRoles (config t) route) as [|r rs]; [by left |].
  destruct (middlewareRegistry t !! "roleCheck") as [f|]; [| by left].
  right. by exists f.
Qed.

Lemma filter_resolved_roleEntry t names route :
  filter (λ e, ¬ isRoleEntry e) (resolved (middlewareRegistry t) names ++ roleEntry t route)
  = resolved (middlewareRegistry t) names.
Proof.
  rewrite filter_app.
  assert (filter (λ e, ¬ isRoleEntry e) (roleEntry t route) = []) as ->.
  { by destruct (roleEntry_cases t route) as [-> | (f & _ & _ & ->)]. }
  rewrite app_nil_r.
  pose proof (resolved_no_role_entry (middlewareRegistry t) names) as Hno.
  induction Hno as [|e l He _ IH]; [done |].
  by rewrite filter_cons, decide_True, IH.
Qed.

(** ** Name lists *)

Lemma removeName_filter name l : removeName name l = filter (λ x, x ≠ name) l.
Proof.
  induction l as [|x l IH]; simpl; [done |]. rewrite filter_cons, IH.
  destruct (decide (x = name)).
  - by rewrite decide_False by tauto.
  - by rewrite decide_True.
Qed.

Lemma foldr_removeName ds l : foldr removeName l ds = withoutNames ds l.
Proof.
  unfold withoutNames. induction ds as [|d ds IH]; simpl.
  - induction l as [|x l IHl]; [done |].
    rewrite filter_cons, decide_True by apply not_elem_of_nil. by rewrite <- IHl.
  - rewrite IH, removeName_filter, list_filter_filter.
    apply list_filter_iff. intros x. rewrite not_elem_of_cons. tauto.
Qed.

Lemma withoutNames_nil l : withoutNames [] l = l.
Proof. by rewrite <- foldr_removeName. Qed.

(** The names of a chain are among the names the validator checks. *)
Lemma middlewareNames_subseteq cfg route :
  middlewareNames cfg route ⊆ allMiddlewares cfg route.
Proof.
  unfold middlewareNames, allMiddlewares, withoutNames. intros n.
  destruct (disabled route) as [d|], (enabled route) as [e|]; simpl;
    rewrite ?elem_of_app, ?list_elem_of_filter, ?app_nil_r; tauto.
Qed.

Lemma occurrences_app name a b :
  occurrences name (a ++ b) = occurrences name a + occurrences name b.
Proof. unfold occurrences. by rewrite filter_app, length_app. Qed.

Lemma occurrences_pos name l : name ∈ l ↔ 0 < occurrences name l.
Proof.
  unfold occurrences. induction l as [|x l IH].
  - split; [by intros ?%elem_of_nil | simpl; lia].
  - rewrite elem_of_cons, filter_cons. destruct (decide (x = name)) as [-> | Hne]; simpl.
    + split; [lia | by left].
    + rewrite IH. split; [intros [-> | ?]; [done | done] | by right].
Qed.

Lemma resolved_occurrences registry names name f :
  resolvable registry names → registry !! name = Some f →
  occurrences name names
  ≤ length (filter (λ e, e = Registered f) (resolved registry names)).
Proof.
  unfold resolvable, resolved, occurrences. intros Hres Hf.
  induction Hres as [|n names [g Hg] _ IH]; csimpl; [done |].
  rewrite Hg. csimpl. rewrite !filter_cons.
  destruct (decide (n = name)) as [-> | Hne].
  - assert (g = f) as -> by congruence. rewrite decide_True by done. csimpl. lia.
  - destruct (decide (Registered g = Registered f)); csimpl; lia.
Qed.

Lemma occurrences_withoutNames name ds l :
  occurrences name (withoutNames ds l)
  = if decide (name ∈ ds) then 0 else occurrences name l.
Proof.
  unfold occurrences, withoutNames. rewrite list_filter_filter.
  destruct (decide (name ∈ ds)) as [Hin | Hnot].
  - assert (filter (λ x, x = name ∧ x ∉ ds) l = []) as ->; [| done].
    induction l as [|x l IH]; [done |].
    rewrite filter_cons, decide_False; [done |]. by intros [-> ?].
  - f_equal. apply list_filter_iff. intros x. split; [tauto |]. by intros ->.
Qed.

(** ** The apply loop *)

Lemma mounted_refl router h : mounted router h h [] [].
Proof. unfold mounted. by rewrite !app_nil_r. Qed.

Lemma mounted_step router h route chain h' calls built :
  mounted router
    {| this := this h;
       surfaces := <[router := surfaces h !!! router ++
                      [{| reg_method := toLowerCase (METHODS (method route));
                          reg_path := path route; reg_chain := chain;
                          reg_handler := handler route |}]]> (surfaces h);
       chainBuilds := chainBuilds h ++ [route] |} h' calls built →
  mounted router h h'
    ({| reg_method := toLowerCase (METHODS (method route));
        reg_path := path route; reg_chain := chain;
        reg_handler := handler route |} :: calls) (route :: built).
Proof.
  unfold mounted. simpl. intros (Ht & Hs & Ho & Hb). split_and!.
  - done.
  - rewrite Hs. rewrite lookup_total_insert_eq. by rewrite <- app_assoc.
  - intros l Hl. rewrite Ho by done. by rewrite lookup_insert_ne.
  - rewrite Hb. by rewrite <- app_assoc.
Qed.

Lemma applyRoutes_cons router route rest h :
  applyRoutes router (route :: rest) h =
  match (buildMiddlewareChain route h).1 with
  | Throw e => (Throw e, afterBuild route h)
  | Normal chain =>
      applyRoutes router rest
        {| this := this h;
           surfaces := <[router := surfaces h !!! router ++
                          [{| reg_method := toLowerCase (METHODS (method route));
                              reg_path := path route; reg_chain := chain;
                              reg_handler := handler route |}]]> (surfaces h);
           chainBuilds := chainBuilds h ++ [route] |}
  end.
Proof.
  simpl. unfold mbind at 1, M_bind at 1.
  rewrite buildMiddlewareChain_run. simpl.
  by destruct (firstUnregistered _ _).
Qed.

(** The call made for the head route registers it, given that its names
    resolve ([Hr]); the calls for the tail are an assumption. *)
Ltac registers_head Hr :=
  constructor; [| done];
  unfold registers; simpl; split_and!; try done;
  let h0 := fresh "h" in
  let E := fresh "E" in
  intros h0 E; rewrite buildMiddlewareChain_run; simpl; rewrite E; by rewrite Hr.

(** Every route builds: all are mounted, in order. *)
Lemma applyRoutes_ok router rs h :
  Forall (λ r, resolvable (middlewareRegistry (this h))
                 (middlewareNames (config (this h)) r)) rs →
  ∃ h' calls,
    applyRoutes router rs h = (Normal tt, h')
    ∧ mounted router h h' calls rs
    ∧ Forall2 (registers (this h)) rs calls.
Proof.
  intros Hall. revert h Hall.
  induction rs as [|route rest IH]; intros h Hall.
  - exists h, []. split_and!; [done | apply mounted_refl | constructor].
  - apply Forall_cons in Hall as [Hr Hrest].
    rewrite applyRoutes_cons.
    pose proof (buildMiddlewareChain_run route h) as Hrun.
    apply firstUnregistered_None in Hr. rewrite Hr in Hrun.
    rewrite Hrun. simpl.
    match goal with |- context [applyRoutes router rest ?h1] =>
      destruct (IH h1) as (h' & calls & Happ & Hm & Hregs); [done |] end.
    eexists h', (_ :: calls). split_and!.
    + exact Happ.
    + by apply mounted_step.
    + registers_head Hr.
Qed.

(** The first route whose chain names an unregistered middleware stops
    the loop; the routes before it stay mounted. *)
Lemma applyRoutes_throw router pre route post m h :
  Forall (λ r, resolvable (middlewareRegistry (this h))
                 (middlewareNames (config (this h)) r)) pre →
  firstUnregistered (middlewareRegistry (this h))
    (middlewareNames (config (this h)) route) = Some m →
  ∃ h' calls,
    applyRoutes router (pre ++ route :: post) h = (Throw (notRegistered m), h')
    ∧ mounted router h h' calls (pre ++ [route])
    ∧ Forall2 (registers (this h)) pre calls.
Proof.
  intros Hpre Hm. revert h Hpre Hm.
  induction pre as [|r pre IH]; intros h Hpre Hm.
  - simpl app. rewrite applyRoutes_cons, buildMiddlewareChain_run. simpl.
    rewrite Hm. eexists _, []. split_and!; [done | | constructor].
    unfold mounted, afterBuild. simpl. by rewrite app_nil_r.
  - apply Forall_cons in Hpre as [Hr Hrest].
    simpl app. rewrite applyRoutes_cons.
    pose proof (buildMiddlewareChain_run r h) as Hrun.
    apply firstUnregistered_None in Hr. rewrite Hr in Hrun.
    rewrite Hrun. simpl.
    match goal with |- context [applyRoutes router _ ?h1] =>
      destruct (IH h1) as (h' & calls & Happ & Hmt & Hregs); [done | done |] end.
    eexists h', (_ :: calls). split_and!.
    + exact Happ.
    + by apply mounted_step.
    + registers_head Hr.
Qed.

Lemma applyToExpress_run router h :
  applyToExpress router h =
  match applyRoutes router (routes (config (this h))) h with
  | (Normal _, h') => (Normal router, h')
  | (Throw e, h') => (Throw e, h')
  end.
Proof.
  unfold applyToExpress, mbind, M_bind, getThis. simpl.
  by destruct (applyRoutes _ _ h) as [[[]|e] h'].
Qed.

Lemma applyToHono_applyToExpress app h : applyToHono app h = applyToExpress app h.
Proof. reflexivity. Qed.

Lemma not_buildable_firstUnregistered t route :
  ¬ buildable t route →
  ∃ m, firstUnregistered (middlewareRegistry t) (middlewareNames (config t) route) = Some m.
Proof.
  unfold buildable. rewrite <- firstUnregistered_None.
  destruct (firstUnregistered _ _) as [m|]; [by exists m | done].
Qed.

(** A list splits at its first element violating a decidable property. *)
Lemma Forall_or_first_violation {A} (P : A → Prop) `{!∀ x, Decision (P x)} (l : list A) :
  Forall P l ∨ ∃ pre x post, l = pre ++ x :: post ∧ Forall P pre ∧ ¬ P x.
Proof.
  induction l as [|x l [IH | (pre & y & post & -> & Hpre & Hy)]].
  - left. constructor.
  - destruct (decide (P x)) as [Hx | Hx].
    + left. by constructor.
    + right. exists [], x, l. split_and!; [done | constructor | done].
  - destruct (decide (P x)) as [Hx | Hx].
    + right. exists (x :: pre), y, post. split_and!; [done | by constructor | done].
    + right. exists [], x, (pre ++ y :: post). split_and!; [done | constructor | done].
Qed.

Lemma lowercase_method m :
  toLowerCase (METHODS m)
  = match m with
    | GET => "get" | POST => "post" | PUT => "put" | DELETE => "delete" | PATCH => "patch"
    end.
Proof. by destruct m. Qed.

(** ** The validator *)

Lemma checkMiddlewares_run registry route names errs :
  checkMiddlewares registry route names errs =
  errs ++ (middlewareError route <$> unregistered registry names).
Proof.
  unfold unregistered. revert errs.
  induction names as [|mw names IH]; intros errs; simpl.
  - by rewrite app_nil_r.
  - rewrite IH, filter_cons. case_bool_decide as Hreg.
    + destruct Hreg as [f Hf]. by rewrite decide_False by congruence.
    + rewrite decide_True by (by apply eq_None_not_Some).
      simpl. by rewrite <- app_assoc.
Qed.

Lemma validateRoutes_run t rs errs :
  validateRoutes t rs errs = errs ++ concat (routeErrors t <$> rs).
Proof.
  revert errs. induction rs as [|route rest IH]; intros errs; simpl.
  - by rewrite app_nil_r.
  - rewrite IH, checkMiddlewares_run. unfold routeErrors at 2, allMiddlewares.
    case_bool_decide as Hfn.
    + rewrite decide_False by done. by rewrite <- !app_assoc.
    + rewrite decide_True by done. by rewrite <- !app_assoc.
Qed.

Lemma validate_run h :
  validate h =
  (Normal {| valid := bool_decide (concat (routeErrors (this h) <$> routes (config (this h))) = []);
             errors := concat (routeErrors (this h) <$> routes (config (this h))) |}, h).
Proof.
  unfold validate, mbind, M_bind, getThis, mret, M_ret. simpl.
  rewrite validateRoutes_run. simpl. do 3 f_equal.
  apply bool_decide_ext. by rewrite length_zero_iff_nil.
Qed.

Lemma unregistered_nil registry names :
  unregistered registry names = [] ↔ resolvable registry names.
Proof.
  unfold unregistered, resolvable. induction names as [|n names IH].
  - split; [constructor | done].
  - rewrite filter_cons, Forall_cons. destruct (registry !! n) as [f|] eqn:E.
    + rewrite decide_False by done. rewrite IH. split; [| tauto].
      intros H. split; [by eexists | done].
    + rewrite decide_True by done. split; [done |].
      intros [[f Hf] _]. congruence.
Qed.

Lemma routeErrors_nil t route :
  routeErrors t route = [] ↔
  typeof (handler route) = "function"
  ∧ resolvable (middlewareRegistry t) (allMiddlewares (config t) route).
Proof.
  unfold routeErrors. rewrite <- unregistered_nil. split.
  - intros [H1 H2]%app_eq_nil. split.
    + by destruct (decide (typeof (handler route) = "function")).
    + by apply fmap_nil_inv in H2.
  - intros [Hfn ->]. by rewrite decide_True by done.
Qed.

Lemma concat_nil_Forall {A} (ls : list (list A)) :
  concat ls = [] ↔ Forall (λ l, l = []) ls.
Proof.
  induction ls as [|l ls IH]; simpl.
  - split; [constructor | done].
  - rewrite Forall_cons, <- IH. split.
    + by intros [??]%app_eq_nil.
    + by intros [-> ->].
Qed.

(** [validate] reports [valid] exactly when every handler is a function
    and every name of every [allMiddlewares] list is registered. *)
Lemma validate_valid_iff h :
  concat (routeErrors (this h) <$> routes (config (this h))) = [] ↔
  Forall (λ route, typeof (handler route) = "function"
                   ∧ resolvable (middlewareRegistry (this h))
                       (allMiddlewares (config (this h)) route))
         (routes (config (this h))).
Proof.
  rewrite concat_nil_Forall, Forall_fmap. apply Forall_proper; [| done].
  intros route. apply routeErrors_nil.
Qed.

Lemma valid_buildable h :
  concat (routeErrors (this h) <$> routes (config (this h))) = [] →
  Forall (buildable (this h)) (routes (config (this h))).
Proof.
  rewrite validate_valid_iff. intros Hall. eapply Forall_impl; [exact Hall |].
  intros route [_ Hres]. unfold buildable.
  eapply resolvable_subseteq; [apply middlewareNames_subseteq | done].
Qed.

Lemma unregistered_delete_other registry name names :
  name ∉ names → unregistered (delete name registry) names = unregistered registry names.
Proof.
  unfold unregistered. induction names as [|n names IH]; [done |].
  intros [Hne Hnot]%not_elem_of_cons. rewrite !filter_cons, IH by done.
  by rewrite lookup_delete_ne.
Qed.

Lemma elem_of_unregistered registry names mw :
  mw ∈ unregistered registry names ↔ registry !! mw = None ∧ mw ∈ names.
Proof. unfold unregistered. by rewrite list_elem_of_filter. Qed.

Lemma elem_of_validate_errors t rs route e :
  route ∈ rs → e ∈ routeErrors t route → e ∈ concat (routeErrors t <$> rs).
Proof.
  intros Hroute He. induction Hroute as [route rest | other route rest _ IH]; simpl.
  - apply elem_of_app. by left.
  - apply elem_of_app. right. by apply IH.
Qed.

Lemma routeErrors_length t route :
  length (routeErrors t route) = unresolvedReferences t route.
Proof.
  unfold routeErrors, unresolvedReferences. rewrite length_app, length_fmap.
  by destruct (decide (typeof (handler route) = "function")).
Qed.

Lemma concat_length_sum {A} (ls : list (list A)) :
  length (concat ls) = sum_list (length <$> ls).
Proof. induction ls as [|l ls IH]; simpl; [done |]. by rewrite length_app, IH. Qed.

Lemma sum_list_ones (l : list nat) : Forall (λ n, n = 1) l → sum_list l = length l.
Proof. induction 1 as [|n l -> _ IH]; simpl; [done |]. by rewrite IH. Qed.

(** * The chain builder: role-check entry *)

(** C1, counterexample: with registry [{logging, auth}] the route
    [POST /admin, roles ['admin'], enabled ['auth']] has a non-empty
    active role set, yet the builder returns [[logging, auth]] normally:
    no role-check entry is appended and nothing is signalled. *)
Lemma role_check_silently_skipped :
  activeRoles (config (this scenarioWithoutRoleCheck)) adminRoute = ["admin"]
  ∧ (buildMiddlewareChain adminRoute scenarioWithoutRoleCheck).1
    = Normal [Registered logging; Registered auth]
  ∧ ¬ roleCheckIsLast scenarioWithoutRoleCheck adminRoute.
Proof.
  split_and!; [done | by vm_compute |].
  intros (factory & named & Hf & _). vm_compute in Hf. discriminate.
Qed.

(** C1, amended: for a route whose active role set is non-empty,
    (1) when every name of the chain is registered, the builder returns
    the registered callables of the names, in order, followed by the
    role-check factory applied to the roles when ['roleCheck'] is
    registered, and by nothing (and without error) when it is not;
    (2) when some name is unregistered the builder throws
    [Middleware '<name>' not registered] for the first such name;
    (3) whenever the builder returns a chain, its leading entries are
    exactly the callables of all the names: no named middleware is dropped. *)
Theorem role_entry_iff_roleCheck_registered h route :
  let registry := middlewareRegistry (this h) in
  let names := middlewareNames (config (this h)) route in
  let rs := activeRoles (config (this h)) route in
  rs ≠ [] →
  (resolvable registry names →
     (buildMiddlewareChain route h).1 =
     Normal (resolved registry names ++
             match registry !! "roleCheck" with
             | Some factory => [Invoked factory rs]
             | None => []
             end))
  ∧ (∀ m, firstUnregistered registry names = Some m →
       (buildMiddlewareChain route h).1 = Throw (notRegistered m))
  ∧ (∀ chain, (buildMiddlewareChain route h).1 = Normal chain →
       Forall2 (λ n entry, ∃ f, registry !! n = Some f ∧ entry = Registered f)
               names (take (length names) chain)).
Proof.
  intros registry names rs Hrs. rewrite buildMiddlewareChain_run. simpl.
  fold registry names. split_and!.
  - intros Hres%firstUnregistered_None. rewrite Hres. unfold roleEntry.
    fold registry rs. by destruct rs.
  - by intros m ->.
  - intros chain Hchain. destruct (firstUnregistered registry names) eqn:E; [done |].
    apply firstUnregistered_None in E. injection Hchain as <-.
    rewrite take_app_length'; [by apply resolved_Forall2 | by rewrite resolved_length].
Qed.

Lemma role_entry_iff_roleCheck_registered_witness :
  (buildMiddlewareChain adminRoute scenarioWithRoleCheck).1
  = Normal [Registered logging; Registered auth; Invoked roleMiddleware ["admin"]]
  ∧ (buildMiddlewareChain adminRoute scenarioWithoutRoleCheck).1
    = Normal [Registered logging; Registered auth].
Proof.
  split.
  - refine (proj1 (role_entry_iff_roleCheck_registered scenarioWithRoleCheck adminRoute _) _).
    + vm_compute. discriminate.
    + vm_compute. repeat constructor; by eexists.
  - refine (proj1 (role_entry_iff_roleCheck_registered scenarioWithoutRoleCheck adminRoute _) _).
    + vm_compute. discriminate.
    + vm_compute. repeat constructor; by eexists.
Defined.

(** * The chain builder: names and roles *)

(** C4: the name list the chain builder resolves equals the defaults
    with every name of [route.disabled] removed, followed by the members
    of [route.enabled] in the order given; the removal keeps the order of
    the remaining defaults; with both lists empty (or absent) the list is
    [defaultMiddlewares] itself; and the named entries of any chain the
    builder returns are the registered callables of exactly that list, in
    that order. *)
Theorem middlewareNames_spec h route :
  let cfg := config (this h) in
  let names :=
    specifiedNames (defaultMiddlewares cfg) (orEmpty (disabled route))
      (orEmpty (enabled route)) in
  middlewareNames cfg route = names
  ∧ names = filter (λ m, m ∉ orEmpty (disabled route)) (defaultMiddlewares cfg)
            ++ orEmpty (enabled route)
  ∧ foldr removeName (defaultMiddlewares cfg) (orEmpty (disabled route))
      `sublist_of` defaultMiddlewares cfg
  ∧ (orEmpty (disabled route) = [] → orEmpty (enabled route) = [] →
     middlewareNames cfg route = defaultMiddlewares cfg)
  ∧ (∀ chain, (buildMiddlewareChain route h).1 = Normal chain →
       Forall2 (λ n entry, ∃ f, middlewareRegistry (this h) !! n = Some f
                                ∧ entry = Registered f)
               names (filter (λ e, ¬ isRoleEntry e) chain)).
Proof.
  intros cfg names.
  assert (middlewareNames cfg route = names) as Hnames.
  { unfold names, specifiedNames, middlewareNames. rewrite foldr_removeName.
    destruct (disabled route) as [d|], (enabled route) as [e|]; simpl;
      by rewrite ?withoutNames_nil, ?app_nil_r. }
  split_and!.
  - done.
  - unfold names, specifiedNames. by rewrite foldr_removeName.
  - rewrite foldr_removeName. apply sublist_filter.
  - intros Hd He. rewrite Hnames. unfold names, specifiedNames.
    by rewrite Hd, He, app_nil_r.
  - intros chain [Hb ->]%chain_named_entries.
    rewrite filter_resolved_roleEntry. fold cfg. rewrite <- Hnames.
    by apply resolved_Forall2.
Qed.

Lemma middlewareNames_spec_witness :
  middlewareNames (config (this lettersRouter)) enableAfterDisable = ["B"; "X"; "Y"]
  ∧ Forall2 (λ n entry, ∃ f, middlewareRegistry (this lettersRouter) !! n = Some f
                             ∧ entry = Registered f)
            ["B"; "X"; "Y"]
            [Registered (FnRef 42); Registered (FnRef 43); Registered (FnRef 44)].
Proof.
  destruct (middlewareNames_spec lettersRouter enableAfterDisable) as (Hn & _ & _ & _ & Hc).
  split; [exact Hn |].
  exact (Hc [Registered (FnRef 42); Registered (FnRef 43); Registered (FnRef 44)] eq_refl).
Defined.

(** C9: the disable filter touches the defaults only.  A name occurs in
    the computed list as often as in the defaults (not at all, if it is
    disabled) plus as often as in [route.enabled]: every enabled name is
    in the list even when it is also disabled, and a name that is both a
    default and enabled, and not disabled, occurs at least twice; its
    callable then occurs at least twice in the chain the builder returns. *)
Theorem disable_spares_enabled h route name :
  let cfg := config (this h) in
  occurrences name (middlewareNames cfg route)
  = (if decide (name ∈ orEmpty (disabled route)) then 0
     else occurrences name (defaultMiddlewares cfg))
    + occurrences name (orEmpty (enabled route))
  ∧ (name ∈ orEmpty (enabled route) → name ∈ middlewareNames cfg route)
  ∧ (name ∈ defaultMiddlewares cfg → name ∈ orEmpty (enabled route) →
     name ∉ orEmpty (disabled route) →
     2 ≤ occurrences name (middlewareNames cfg route)
     ∧ ∀ chain f, (buildMiddlewareChain route h).1 = Normal chain →
         middlewareRegistry (this h) !! name = Some f →
         2 ≤ length (filter (λ e, e = Registered f) chain)).
Proof.
  intros cfg.
  assert (occurrences name (middlewareNames cfg route)
          = (if decide (name ∈ orEmpty (disabled route)) then 0
             else occurrences name (defaultMiddlewares cfg))
            + occurrences name (orEmpty (enabled route))) as Hocc.
  { unfold middlewareNames.
    destruct (disabled route) as [d|], (enabled route) as [e|]; simpl;
      rewrite ?occurrences_app, ?occurrences_withoutNames;
      rewrite ?(decide_False (P := name ∈ [])) by apply not_elem_of_nil;
      unfold occurrences; simpl; lia. }
  split_and!; [done | |].
  - rewrite !occurrences_pos. lia.
  - intros Hd%occurrences_pos He%occurrences_pos Hnot.
    assert (2 ≤ occurrences name (middlewareNames cfg route)) as Htwice
      by (rewrite Hocc, decide_False by done; lia).
    split; [done |].
    intros chain f [Hb ->]%chain_named_entries Hf.
    rewrite filter_app, length_app.
    pose proof (resolved_occurrences _ _ name f Hb Hf) as Hle. fold cfg in Hle |- *. lia.
Qed.

Lemma disable_spares_enabled_witness :
  middlewareNames (config (this overlappingRouter)) overlappingRoute
  = ["logging"; "auth"; "logging"]
  ∧ "auth" ∈ middlewareNames (config (this overlappingRouter)) overlappingRoute
  ∧ 2 ≤ occurrences "logging" (middlewareNames (config (this overlappingRouter)) overlappingRoute)
  ∧ 2 ≤ length (filter (λ e, e = Registered logging)
                  [Registered logging; Registered auth; Registered logging]).
Proof.
  destruct (disable_spares_enabled overlappingRouter overlappingRoute "auth")
    as (_ & Hin & _).
  destruct (disable_spares_enabled overlappingRouter overlappingRoute "logging")
    as (_ & _ & Htwice).
  destruct Htwice as [Hnames Hchain].
  - apply list_elem_of_lookup. by exists 0.
  - apply list_elem_of_lookup. by exists 1.
  - intros Hd. by apply (bool_decide_pack _) in Hd.
  - split_and!.
    + reflexivity.
    + apply Hin. apply list_elem_of_lookup. by exists 0.
    + exact Hnames.
    + exact (Hchain _ logging eq_refl eq_refl).
Defined.

(** C5: the exclusion filters the default roles, and a present
    [route.roles] then replaces the result: whenever [roles] is set the
    active role set is [route.roles], whatever [excludeRoles] says, and
    that is the set handed to the role-check factory; without [roles] the
    active set is the default roles minus the excluded ones. *)
Theorem roles_replace_after_exclusion h route :
  let cfg := config (this h) in
  (∀ rs, roles route = Some rs → activeRoles cfg route = rs)
  ∧ (roles route = None →
     activeRoles cfg route
     = filter (λ r, r ∉ orEmpty (excludeRoles route)) (defaultRoles cfg))
  ∧ (∀ rs factory, roles route = Some rs → rs ≠ [] →
       middlewareRegistry (this h) !! "roleCheck" = Some factory →
       buildable (this h) route →
       (buildMiddlewareChain route h).1
       = Normal (resolved (middlewareRegistry (this h)) (middlewareNames cfg route)
                 ++ [Invoked factory rs])).
Proof.
  intros cfg. split_and!.
  - intros rs Hrs. unfold activeRoles. by rewrite Hrs.
  - intros Hnone. unfold activeRoles. rewrite Hnone.
    destruct (excludeRoles route) as [x|]; simpl; [done |].
    by rewrite <- (withoutNames_nil (defaultRoles cfg)) at 1.
  - intros rs factory Hrs Hne Hf Hb. rewrite buildMiddlewareChain_run. simpl.
    apply firstUnregistered_None in Hb. rewrite Hb.
    unfold roleEntry, activeRoles. rewrite Hrs, Hf. by destruct rs.
Qed.

Lemma roles_replace_after_exclusion_witness :
  activeRoles (config (this (adminDefaultsRouter [editorRoute]))) editorRoute = ["editor"]
  ∧ (buildMiddlewareChain editorRoute (adminDefaultsRouter [editorRoute])).1
    = Normal [Invoked roleMiddleware ["editor"]].
Proof.
  destruct (roles_replace_after_exclusion (adminDefaultsRouter [editorRoute]) editorRoute)
    as (Hset & _ & Hchain).
  split.
  - by apply Hset.
  - apply Hchain; [done | done | done | constructor].
Defined.

(** C10: [if (route.roles)] tests presence.  A route with [roles: []]
    gets the empty active role set, so the chain the builder returns for
    it is the named middleware alone, without role-check entry, whatever
    the default roles and even with ['roleCheck'] registered.  A route
    that omits [roles] (and [excludeRoles]) keeps the default roles, and
    with non-empty defaults and a registered factory its chain ends with
    the role check on the default roles. *)
Theorem empty_roles_suppress_role_check h route :
  let t := this h in
  let named := resolved (middlewareRegistry t) (middlewareNames (config t) route) in
  (roles route = Some [] →
     activeRoles (config t) route = []
     ∧ (buildable t route → (buildMiddlewareChain route h).1 = Normal named)
     ∧ (∀ chain, (buildMiddlewareChain route h).1 = Normal chain →
          Forall (λ e, ¬ isRoleEntry e) chain))
  ∧ (roles route = None → excludeRoles route = None →
     activeRoles (config t) route = defaultRoles (config t)
     ∧ (∀ factory, defaultRoles (config t) ≠ [] →
          middlewareRegistry t !! "roleCheck" = Some factory →
          buildable t route →
          (buildMiddlewareChain route h).1
          = Normal (named ++ [Invoked factory (defaultRoles (config t))]))).
Proof.
  intros t named. split.
  - intros Hempty.
    assert (activeRoles (config t) route = []) as Hact
      by (unfold activeRoles; by rewrite Hempty).
    assert (roleEntry t route = []) as Hentry by (unfold roleEntry; by rewrite Hact).
    split_and!; [done | |].
    + intros Hb%firstUnregistered_None. rewrite buildMiddlewareChain_run. simpl.
      fold t. by rewrite Hb, Hentry, app_nil_r.
    + intros chain [_ ->]%chain_named_entries. fold t. rewrite Hentry, app_nil_r.
      apply resolved_no_role_entry.
  - intros Hnone Hex.
    assert (activeRoles (config t) route = defaultRoles (config t)) as Hact
      by (unfold activeRoles; by rewrite Hnone, Hex).
    split; [done |].
    intros factory Hne Hf Hb%firstUnregistered_None.
    rewrite buildMiddlewareChain_run. simpl. fold t. rewrite Hb.
    unfold roleEntry. rewrite Hact, Hf. by destruct (defaultRoles (config t)).
Qed.

Lemma empty_roles_suppress_role_check_witness :
  defaultRoles (config (this (adminDefaultsRouter [emptyRolesRoute; omittedRolesRoute])))
  = ["admin"]
  ∧ (buildMiddlewareChain emptyRolesRoute
       (adminDefaultsRouter [emptyRolesRoute; omittedRolesRoute])).1 = Normal []
  ∧ (buildMiddlewareChain omittedRolesRoute
       (adminDefaultsRouter [emptyRolesRoute; omittedRolesRoute])).1
    = Normal [Invoked roleMiddleware ["admin"]].
Proof.
  destruct (empty_roles_suppress_role_check
              (adminDefaultsRouter [emptyRolesRoute; omittedRolesRoute]) emptyRolesRoute)
    as [Hempty _].
  destruct (empty_roles_suppress_role_check
              (adminDefaultsRouter [emptyRolesRoute; omittedRolesRoute]) omittedRolesRoute)
    as [_ Homitted].
  split_and!.
  - reflexivity.
  - apply (Hempty eq_refl). constructor.
  - apply (Homitted eq_refl eq_refl); [done | done | constructor].
Defined.

(** * The validator *)

(** C3, counterexample: [POST /admin] carries [roles: ['admin']], the
    registry is [{logging, auth}], and [validate] answers
    [{valid: true, errors: []}]. *)
Lemma validate_accepts_missing_roleCheck :
  adminRoute ∈ routes (config (this scenarioWithoutRoleCheck))
  ∧ activeRoles (config (this scenarioWithoutRoleCheck)) adminRoute = ["admin"]
  ∧ middlewareRegistry (this scenarioWithoutRoleCheck) !! "roleCheck" = None
  ∧ (validate scenarioWithoutRoleCheck).1 = Normal {| valid := true; errors := [] |}
  ∧ ¬ roleCheckEnforced scenarioWithoutRoleCheck.
Proof.
  assert (adminRoute ∈ routes (config (this scenarioWithoutRoleCheck))) as Hin.
  { apply list_elem_of_lookup. by exists 1. }
  split_and!; [done | done | by vm_compute | by vm_compute |].
  intros H. unshelve epose proof (H _ _ _ eq_refl) as Hv.
  - right. exists adminRoute. split; [done | discriminate].
  - by vm_compute.
  - vm_compute in Hv. discriminate.
Qed.

(** C3, amended: [validate] inspects, per route, the handler and the
    names of [defaultMiddlewares ++ (route.enabled || [])], nothing else.
    (1) Its report does not depend on [defaultRoles], [roles] or
    [excludeRoles]; (2) it does not depend on whether ['roleCheck'] is
    registered, unless that name is itself listed among the defaults or a
    route's [enabled]; (3) so a config whose handlers are functions and
    whose listed names are registered is reported valid, whatever its
    roles and with or without a role-check factory. *)
Theorem validate_ignores_roles h :
  let t := this h in
  (validate (withThis {| middlewareRegistry := middlewareRegistry t;
                         config := configWithoutRoles (config t) |} h)).1
    = (validate h).1
  ∧ (Forall (λ route, "roleCheck" ∉ allMiddlewares (config t) route) (routes (config t)) →
     (validate (withThis {| middlewareRegistry := delete "roleCheck" (middlewareRegistry t);
                            config := config t |} h)).1
       = (validate h).1)
  ∧ (Forall (λ route, typeof (handler route) = "function"
                      ∧ resolvable (middlewareRegistry t) (allMiddlewares (config t) route))
            (routes (config t)) →
     validate h = (Normal {| valid := true; errors := [] |}, h)).
Proof.
  intros t. rewrite !validate_run. simpl. fold t. split_and!.
  - rewrite <- list_fmap_compose.
    assert (routeErrors {| middlewareRegistry := middlewareRegistry t;
                           config := configWithoutRoles (config t) |} ∘ withoutRoles
              <$> routes (config t)
            = routeErrors t <$> routes (config t)) as ->; [| done].
    apply list_fmap_ext. by intros i route _.
  - intros Hnot.
    assert (routeErrors {| middlewareRegistry := delete "roleCheck" (middlewareRegistry t);
                           config := config t |} <$> routes (config t)
            = routeErrors t <$> routes (config t)) as ->; [| done].
    apply Forall_fmap_ext. eapply Forall_impl; [exact Hnot |].
    intros route Hroute. unfold routeErrors. simpl.
    by rewrite unregistered_delete_other.
  - intros Hall%validate_valid_iff. fold t in Hall. rewrite Hall.
    by rewrite bool_decide_eq_true_2.
Qed.

Lemma validate_ignores_roles_witness :
  (validate (withThis {| middlewareRegistry :=
                           delete "roleCheck" (middlewareRegistry (this scenarioWithRoleCheck));
                         config := scenarioConfig |} scenarioWithRoleCheck)).1
    = (validate scenarioWithRoleCheck).1
  ∧ validate scenarioWithoutRoleCheck
    = (Normal {| valid := true; errors := [] |}, scenarioWithoutRoleCheck).
Proof.
  destruct (validate_ignores_roles scenarioWithRoleCheck) as (_ & Hdel & _).
  destruct (validate_ignores_roles scenarioWithoutRoleCheck) as (_ & _ & Hvalid).
  split.
  - apply Hdel. repeat constructor; intros Hin; by apply (bool_decide_pack _) in Hin.
  - apply Hvalid. repeat constructor; by eexists.
Defined.

(** C6: [validate] checks [defaultMiddlewares ++ (route.enabled || [])]
    and ignores [route.disabled].  Its report is the one of the same
    config with all [disabled] lists removed; any unregistered name of
    the union yields the route's [Middleware '<name>' not registered]
    error and [valid = false]; this holds in particular for a default
    that the route disables, although that name (unless the route enables
    it again) is not in the route's computed chain. *)
Theorem validate_checks_disabled_names h :
  let t := this h in
  (validate (withThis {| middlewareRegistry := middlewareRegistry t;
                         config := configWithoutDisabled (config t) |} h)).1
    = (validate h).1
  ∧ (∀ route mw,
       route ∈ routes (config t) →
       mw ∈ defaultMiddlewares (config t) ++ orEmpty (enabled route) →
       middlewareRegistry t !! mw = None →
       ∃ report, validate h = (Normal report, h)
                 ∧ middlewareError route mw ∈ errors report
                 ∧ valid report = false)
  ∧ (∀ route mw,
       mw ∈ orEmpty (disabled route) → mw ∉ orEmpty (enabled route) →
       mw ∉ middlewareNames (config t) route).
Proof.
  intros t. split_and!.
  - rewrite !validate_run. simpl. fold t. rewrite <- list_fmap_compose.
    assert (routeErrors {| middlewareRegistry := middlewareRegistry t;
                           config := configWithoutDisabled (config t) |} ∘ withoutDisabled
              <$> routes (config t)
            = routeErrors t <$> routes (config t)) as ->; [| done].
    apply list_fmap_ext. by intros i route _.
  - intros route mw Hroute Hmw Hnone. rewrite validate_run. eexists. split; [done |].
    assert (middlewareError route mw
            ∈ concat (routeErrors t <$> routes (config t))) as Hin.
    { apply (elem_of_validate_errors t _ route); [done |].
      unfold routeErrors. apply elem_of_app. right.
      apply list_elem_of_fmap_2. by apply elem_of_unregistered. }
    simpl. split; [done |].
    apply bool_decide_eq_false. intros Hnil. fold t in Hnil.
    rewrite Hnil in Hin. by apply elem_of_nil in Hin.
  - intros route mw Hd He. unfold middlewareNames, withoutNames.
    destruct (disabled route) as [d|], (enabled route) as [e|]; simpl in *;
      rewrite ?elem_of_app, ?list_elem_of_filter; try tauto;
      by apply elem_of_nil in Hd.
Qed.

Lemma validate_checks_disabled_names_witness :
  middlewareNames (config (this disabledDefaultRouter)) disabledDefaultRoute = ["logging"]
  ∧ ∃ report, validate disabledDefaultRouter = (Normal report, disabledDefaultRouter)
              ∧ "Route GET /ping: Middleware 'metrics' not registered" ∈ errors report
              ∧ valid report = false.
Proof.
  split; [reflexivity |].
  refine (proj1 (proj2 (validate_checks_disabled_names disabledDefaultRouter))
            disabledDefaultRoute "metrics" _ _ _).
  - apply list_elem_of_lookup. by exists 0.
  - apply list_elem_of_lookup. by exists 1.
  - reflexivity.
Defined.

(** C7: [validate] always returns normally and leaves the heap (the
    registry, the config and its route table, the surfaces) as it was.
    The returned errors are the concatenation, in Route Table order, of
    what each route contributes, one error per unresolvable reference;
    [valid] is true exactly when no error was collected.  When each route
    has exactly one unresolvable reference there are as many errors as
    routes (three routes, three errors) and, for a non-empty table,
    [valid] is false. *)
Theorem validate_collects_all_errors h :
  let t := this h in
  ∃ report,
    validate h = (Normal report, h)
    ∧ errors report = concat (routeErrors t <$> routes (config t))
    ∧ length (errors report) = sum_list (unresolvedReferences t <$> routes (config t))
    ∧ (valid report = true ↔ errors report = [])
    ∧ (Forall (λ route, unresolvedReferences t route = 1) (routes (config t)) →
       length (errors report) = length (routes (config t))
       ∧ (routes (config t) ≠ [] → valid report = false)).
Proof.
  intros t. rewrite validate_run. eexists. split; [done |]. simpl. fold t.
  assert (length (concat (routeErrors t <$> routes (config t)))
          = sum_list (unresolvedReferences t <$> routes (config t))) as Hlen.
  { rewrite concat_length_sum, <- list_fmap_compose. f_equal.
    apply list_fmap_ext. intros i route _. apply routeErrors_length. }
  split_and!.
  - done.
  - done.
  - apply bool_decide_eq_true.
  - intros Hone. rewrite Hlen.
    assert (sum_list (unresolvedReferences t <$> routes (config t))
            = length (routes (config t))) as Hsum.
    { rewrite sum_list_ones; [by rewrite length_fmap | by apply Forall_fmap]. }
    split; [done |]. intros Hne. apply bool_decide_eq_false. intros Hnil.
    rewrite Hnil in Hlen. simpl in Hlen.
    destruct (routes (config t)); [done | simpl in *; lia].
Qed.

Lemma validate_collects_all_errors_witness :
  ∃ report,
    validate threeMissingRouter = (Normal report, threeMissingRouter)
    ∧ errors report = ["Route GET /a: Middleware 'cache' not registered";
                       "Route POST /b: Middleware 'csrf' not registered";
                       "Route DELETE /c: Middleware 'audit' not registered"]
    ∧ length (errors report) = 3
    ∧ valid report = false.
Proof.
  destruct (validate_collects_all_errors threeMissingRouter)
    as (report & Hrun & Herrs & _ & _ & Hone).
  exists report. split; [exact Hrun |]. split; [exact Herrs |].
  destruct Hone as [Hlen Hvalid]; [by repeat constructor |].
  split; [exact Hlen | by apply Hvalid].
Defined.

(** * The apply step *)

(** C2, counterexample: [validate] rejects the config with two errors;
    [applyToExpress] nevertheless mounts [GET /health], then throws the
    single message of the first unregistered name. *)
Lemma apply_registers_partially :
  (validate brokenRouter).1
  = Normal {| valid := false;
              errors := ["Route POST /orders: Middleware 'rateLimit' not registered";
                         "Route PUT /orders: Middleware 'audit' not registered"] |}
  ∧ (applyToExpress 0 brokenRouter).1 = Throw "Middleware 'rateLimit' not registered"
  ∧ surfaces brokenRouter !!! 0 = []
  ∧ surfaces (exec (applyToExpress 0) brokenRouter) !!! 0
    = [{| reg_method := "get"; reg_path := "/health";
          reg_chain := [Registered logging]; reg_handler := VFunction (FnRef 20) |}]
  ∧ ¬ applyRefusesInvalid brokenRouter 0.
Proof.
  split_and!; [by vm_compute .. |].
  intros H. destruct (H _ eq_refl eq_refl) as [_ Hs].
  vm_compute in Hs. discriminate.
Qed.

(** C2, amended: the apply step does not validate.  It mounts the routes
    in Route Table order and stops at the first route whose chain names an
    unregistered middleware, throwing that name's
    [Middleware '<name>' not registered] alone; the routes before it stay
    mounted.  It returns the surface exactly when every route is buildable,
    which is the case for every config that [validate] reports valid.
    [applyToHono] behaves identically. *)
Theorem apply_stops_at_first_unbuildable_route h router :
  let t := this h in
  (∀ pre route post m,
     routes (config t) = pre ++ route :: post →
     Forall (buildable t) pre →
     firstUnregistered (middlewareRegistry t) (middlewareNames (config t) route) = Some m →
     ∃ h' calls,
       applyToExpress router h = (Throw (notRegistered m), h')
       ∧ mounted router h h' calls (pre ++ [route])
       ∧ Forall2 (registers t) pre calls)
  ∧ ((applyToExpress router h).1 = Normal router ↔ Forall (buildable t) (routes (config t)))
  ∧ (∀ report, (validate h).1 = Normal report → valid report = true →
       (applyToExpress router h).1 = Normal router)
  ∧ applyToHono router h = applyToExpress router h.
Proof.
  intros t. rewrite applyToExpress_run.
  assert (Forall (buildable t) (routes (config t)) →
          (let (c, h') := applyRoutes router (routes (config t)) h in
           match c with
           | Normal _ => (Normal router, h')
           | Throw e => (Throw e, h')
           end).1 = Normal router) as Hok.
  { intros Hall. destruct (applyRoutes_ok router _ h Hall) as (h' & calls & -> & _). done. }
  split_and!.
  - intros pre route post m Hroutes Hpre Hm. fold t. rewrite Hroutes.
    destruct (applyRoutes_throw router pre route post m h Hpre Hm)
      as (h' & calls & -> & Hmt & Hregs).
    by exists h', calls.
  - split; [| exact Hok].
    intros Hnormal.
    destruct (Forall_or_first_violation (buildable t) (routes (config t)))
      as [Hall | (pre & route & post & Hroutes & Hpre & Hroute)]; [done |].
    apply not_buildable_firstUnregistered in Hroute as [m Hm].
    fold t in Hnormal. rewrite Hroutes in Hnormal.
    destruct (applyRoutes_throw router pre route post m h Hpre Hm)
      as (h' & calls & Heq & _). by rewrite Heq in Hnormal.
  - intros report. rewrite validate_run. simpl. intros [= <-]. simpl.
    intros Hvalid%bool_decide_eq_true. apply Hok. by apply valid_buildable.
  - reflexivity.
Qed.

Lemma apply_stops_at_first_unbuildable_route_witness :
  ∃ h' calls,
    applyToExpress 0 brokenRouter = (Throw "Middleware 'rateLimit' not registered", h')
    ∧ mounted 0 brokenRouter h' calls
        [plainRoute GET "/health" 20;
         {| method := POST; path := "/orders"; handler := VFunction (FnRef 21);
            enabled := Some ["rateLimit"]; disabled := None;
            roles := None; excludeRoles := None |}]
    ∧ Forall2 (registers (this brokenRouter)) [plainRoute GET "/health" 20] calls.
Proof.
  refine (proj1 (apply_stops_at_first_unbuildable_route brokenRouter 0)
            [plainRoute GET "/health" 20] _ _ "rateLimit" _ _ _).
  - reflexivity.
  - repeat constructor. by eexists.
  - reflexivity.
Defined.

(** C8, counterexample: on the router with registry [{logging}] and
    three routes, of which the second enables the unregistered
    [rateLimit], [applyToExpress] returns no surface: it throws after one
    call on the surface, having entered the chain builder for the first
    two routes only. *)
Lemma apply_stops_before_all_routes :
  length (routes (config (this brokenRouter))) = 3
  ∧ (applyToExpress 0 brokenRouter).1 = Throw "Middleware 'rateLimit' not registered"
  ∧ length (surfaces (exec (applyToExpress 0) brokenRouter) !!! 0) = 1
  ∧ chainBuilds (exec (applyToExpress 0) brokenRouter)
    = take 2 (routes (config (this brokenRouter)))
  ∧ ¬ applyMountsEveryRoute brokenRouter 0.
Proof.
  split_and!; [by vm_compute .. |].
  intros (h' & calls & Hrun & _). apply (f_equal fst) in Hrun.
  vm_compute in Hrun. discriminate.
Qed.

(** C8, amended: when every route is buildable, that is, every
    middleware name of every route's chain is registered (which holds
    whenever [validate] reports the config valid), the apply step returns
    the routing surface it was given; the calls it appended to that
    surface match the Route Table one to one and in order, each with the
    lower-cased method, the path and the handler of its route and with
    the chain the builder returns for it; the chain builder was entered
    exactly once per route, in the same order; the router object and all
    other surfaces are unchanged.  [applyToHono] is the same function. *)
Theorem apply_mounts_routes_in_order h router :
  let t := this h in
  (Forall (buildable t) (routes (config t)) →
   ∃ h' calls,
     applyToExpress router h = (Normal router, h')
     ∧ applyToHono router h = (Normal router, h')
     ∧ this h' = t
     ∧ surfaces h' !!! router = surfaces h !!! router ++ calls
     ∧ (∀ l, l ≠ router → surfaces h' !! l = surfaces h !! l)
     ∧ chainBuilds h' = chainBuilds h ++ routes (config t)
     ∧ Forall2 (λ route call,
                  reg_method call
                  = match method route with
                    | GET => "get" | POST => "post" | PUT => "put"
                    | DELETE => "delete" | PATCH => "patch"
                    end
                  ∧ reg_path call = path route
                  ∧ reg_handler call = handler route
                  ∧ (buildMiddlewareChain route h).1 = Normal (reg_chain call))
               (routes (config t)) calls)
  ∧ (∀ report, (validate h).1 = Normal report → valid report = true →
       Forall (buildable t) (routes (config t))).
Proof.
  intros t. split.
  - intros Hall.
    destruct (applyRoutes_ok router _ h Hall) as (h' & calls & Hrun & Hm & Hregs).
    exists h', calls. change (applyToHono router h) with (applyToExpress router h).
    rewrite applyToExpress_run.
    fold t. rewrite Hrun. destruct Hm as (Ht & Hs & Ho & Hb).
    split_and!; try done.
    eapply Forall2_impl; [exact Hregs |].
    intros route call (Hmeth & Hpath & Hhdl & Hchain).
    rewrite <- lowercase_method. split_and!; try done. by apply Hchain.
  - intros report. rewrite validate_run. simpl. intros [= <-]. simpl.
    intros Hvalid%bool_decide_eq_true. by apply valid_buildable.
Qed.

Lemma apply_mounts_routes_in_order_witness :
  ∃ h',
    applyToExpress 7 scenarioWithRoleCheck = (Normal 7, h')
    ∧ surfaces h' !!! 7
      = [ {| reg_method := "get"; reg_path := "/public"; reg_chain := [];
             reg_handler := VFunction (FnRef 10) |};
          {| reg_method := "post"; reg_path := "/admin";
             reg_chain := [Registered logging; Registered auth;
                           Invoked roleMiddleware ["admin"]];
             reg_handler := VFunction (FnRef 11) |} ]
    ∧ chainBuilds h' = [publicRoute; adminRoute].
Proof.
  destruct (proj1 (apply_mounts_routes_in_order scenarioWithRoleCheck 7))
    as (h' & calls & Hrun & _ & _ & Hs & _ & Hb & _).
  - repeat constructor; by eexists.
  - exists h'. split; [exact Hrun |]. split; [| exact Hb].
    rewrite applyToExpress_run in Hrun. vm_compute in Hrun.
    injection Hrun as <-. reflexivity.
Defined.

(** * Registration *)

Lemma registerMiddleware_run name f h :
  registerMiddleware name f h =
  (Normal tt, withThis {| middlewareRegistry := <[name := f]> (middlewareRegistry (this h));
                          config := config (this h) |} h).
Proof. reflexivity. Qed.

Lemma unregistered_insert registry name f names :
  unregistered (<[name := f]> registry) names
  = filter (λ mw, mw ≠ name) (unregistered registry names).
Proof.
  unfold unregistered. rewrite list_filter_filter. apply list_filter_iff.
  intros mw. destruct (decide (mw = name)) as [-> | Hne].
  - rewrite lookup_insert_eq. split; [done | tauto].
  - rewrite lookup_insert_ne by done. tauto.
Qed.

Lemma resolvable_insert registry name f names :
  resolvable (<[name := f]> registry) names
  ↔ resolvable registry (filter (λ n, n ≠ name) names).
Proof.
  unfold resolvable. rewrite !Forall_forall. split.
  - intros H n [Hne Hn]%list_elem_of_filter. specialize (H n Hn).
    by rewrite lookup_insert_ne in H.
  - intros H n Hn. destruct (decide (n = name)) as [-> | Hne].
    + rewrite lookup_insert_eq. by eexists.
    + rewrite lookup_insert_ne by done. apply H. by apply list_elem_of_filter.
Qed.

Lemma concat_sublist {A} (ls ks : list (list A)) :
  Forall2 sublist ls ks → concat ls `sublist_of` concat ks.
Proof. induction 1; simpl; [done |]. by apply sublist_app. Qed.

(** X1: registering a middleware can only remove validation errors.  The
    report after [registerMiddleware name f] lists, route by route and in
    the same order, the errors of the report before except those for the
    name just registered; nothing is added, so a valid config stays valid. *)
Theorem registerMiddleware_only_removes_errors h name f :
  let h' := exec (registerMiddleware name f) h in
  ∃ before after,
    validate h = (Normal before, h)
    ∧ validate h' = (Normal after, h')
    ∧ errors after
      = concat (routeErrorsWithout name (this h) <$> routes (config (this h)))
    ∧ errors after `sublist_of` errors before
    ∧ (valid before = true → valid after = true).
Proof.
  intros h'. rewrite !validate_run. do 2 eexists. split; [done |]. split; [done |].
  simpl.
  set (t' := {| middlewareRegistry := <[name := f]> (middlewareRegistry (this h));
                config := config (this h) |}).
  assert (concat (routeErrors t' <$> routes (config (this h)))
          = concat (routeErrorsWithout name (this h) <$> routes (config (this h)))) as Heq.
  { f_equal. apply list_fmap_ext. intros i route _.
    unfold routeErrors, routeErrorsWithout. simpl. by rewrite unregistered_insert. }
  assert (concat (routeErrorsWithout name (this h) <$> routes (config (this h)))
          `sublist_of` concat (routeErrors (this h) <$> routes (config (this h)))) as Hsub.
  { apply concat_sublist. apply Forall2_fmap, Forall_Forall2_diag, Forall_forall.
    intros route _. unfold routeErrors, routeErrorsWithout.
    apply sublist_app; [done |]. apply fmap_sublist, sublist_filter. }
  rewrite Heq. split_and!; [done | done |].
  intros Hv%bool_decide_eq_true. apply bool_decide_eq_true.
  rewrite Hv in Hsub. by apply sublist_nil_r in Hsub.
Qed.

Lemma registerMiddleware_only_removes_errors_witness :
  (validate brokenRouter).1
  = Normal {| valid := false;
              errors := ["Route POST /orders: Middleware 'rateLimit' not registered";
                         "Route PUT /orders: Middleware 'audit' not registered"] |}
  ∧ ∃ after,
      (validate (exec (registerMiddleware "rateLimit" (FnRef 60)) brokenRouter)).1
      = Normal after
      ∧ errors after = ["Route PUT /orders: Middleware 'audit' not registered"].
Proof.
  split; [reflexivity |].
  destruct (registerMiddleware_only_removes_errors brokenRouter "rateLimit" (FnRef 60))
    as (before & after & _ & Hafter & Herrs & _).
  exists after. split; [by rewrite Hafter | exact Herrs].
Defined.

(** X2: what a registration changes.  After [registerMiddleware name f]
    the registry maps [name] to [f] (replacing an earlier entry), every
    other entry, the config and the surfaces are as before; a route is
    buildable afterwards exactly when all its names other than [name]
    were registered, so no buildable route is lost, and the chain built
    for it resolves every occurrence of [name] to [f]. *)
Theorem registerMiddleware_effect h name f route :
  let h' := exec (registerMiddleware name f) h in
  let names := middlewareNames (config (this h)) route in
  middlewareRegistry (this h') !! name = Some f
  ∧ (∀ n, n ≠ name → middlewareRegistry (this h') !! n = middlewareRegistry (this h) !! n)
  ∧ config (this h') = config (this h)
  ∧ surfaces h' = surfaces h
  ∧ (buildable (this h') route
     ↔ resolvable (middlewareRegistry (this h)) (filter (λ n, n ≠ name) names))
  ∧ (buildable (this h) route → buildable (this h') route)
  ∧ (∀ chain i, (buildMiddlewareChain route h').1 = Normal chain →
       names !! i = Some name → chain !! i = Some (Registered f)).
Proof.
  intros h' names. unfold buildable. simpl. fold names.
  split_and!.
  - apply lookup_insert_eq.
  - intros n Hn. by apply lookup_insert_ne.
  - done.
  - done.
  - apply resolvable_insert.
  - intros Hb. apply resolvable_insert.
    eapply resolvable_subseteq; [| exact Hb]. apply list_subseteq_filter.
  - intros chain i [Hb ->]%chain_named_entries Hi. simpl in *. fold names in Hb |- *.
    pose proof (resolved_Forall2 _ _ Hb) as Hall. simpl in Hall. fold names in Hall.
    destruct (Forall2_lookup_l _ _ _ _ _ Hall Hi) as (e & He & g & Hg & ->).
    rewrite lookup_insert_eq in Hg. injection Hg as <-.
    by apply lookup_app_l_Some.
Qed.

Lemma registerMiddleware_effect_witness :
  (buildMiddlewareChain adminRoute
     (exec (registerMiddleware "auth" (FnRef 61)) scenarioWithRoleCheck)).1
  = Normal [Registered logging; Registered (FnRef 61); Invoked roleMiddleware ["admin"]]
  ∧ [Registered logging; Registered (FnRef 61); Invoked roleMiddleware ["admin"]] !! 1
    = Some (Registered (FnRef 61)).
Proof.
  split; [reflexivity |].
  refine (proj2 (proj2 (proj2 (proj2 (proj2 (proj2
            (registerMiddleware_effect scenarioWithRoleCheck "auth" (FnRef 61) adminRoute))))))
            _ 1 eq_refl eq_refl).
Defined.

(** * Shape of a chain; repeated mounting *)



Lemma registers_functional t route c1 c2 :
  registers t route c1 → registers t route c2 → c1 = c2.
Proof.
  intros (Hm1 & Hp1 & Hh1 & Hc1) (Hm2 & Hp2 & Hh2 & Hc2).
  pose (h := {| this := t; surfaces := ∅; chainBuilds := [] |}).
  specialize (Hc1 h eq_refl). specialize (Hc2 h eq_refl).
  rewrite Hc1 in Hc2. injection Hc2 as Hc.
  destruct c1, c2; simpl in *; congruence.
Qed.

Lemma Forall2_registers_functional t rs cs1 cs2 :
  Forall2 (registers t) rs cs1 → Forall2 (registers t) rs cs2 → cs1 = cs2.
Proof.
  intros H1. revert cs2. induction H1 as [|route c1 rs cs1 Hc1 _ IH]; intros cs2 H2.
  - by apply Forall2_nil_inv_l in H2.
  - apply Forall2_cons_inv_l in H2 as (c2 & cs2' & Hc2 & H2 & ->).
    f_equal; [by eapply registers_functional | by apply IH].
Qed.

(** X4: mounting is not idempotent.  For a router all of whose routes
    are buildable, applying it twice to the same surface appends the same
    sequence of calls twice (nothing is remembered or deduplicated), and
    the chain builder runs again for every route. *)
Theorem apply_twice_mounts_twice h router :
  Forall (buildable (this h)) (routes (config (this h))) →
  ∃ h1 h2 calls,
    applyToExpress router h = (Normal router, h1)
    ∧ applyToExpress router h1 = (Normal router, h2)
    ∧ Forall2 (registers (this h)) (routes (config (this h))) calls
    ∧ surfaces h1 !!! router = surfaces h !!! router ++ calls
    ∧ surfaces h2 !!! router = surfaces h !!! router ++ calls ++ calls
    ∧ chainBuilds h2
      = chainBuilds h ++ routes (config (this h)) ++ routes (config (this h)).
Proof.
  intros Hall.
  destruct (applyRoutes_ok router _ h Hall) as (h1 & calls & Hrun1 & Hm1 & Hregs1).
  destruct Hm1 as (Ht1 & Hs1 & _ & Hb1).
  assert (Forall (buildable (this h1)) (routes (config (this h1)))) as Hall1
    by (by rewrite Ht1).
  destruct (applyRoutes_ok router _ h1 Hall1) as (h2 & calls2 & Hrun2 & Hm2 & Hregs2).
  destruct Hm2 as (Ht2 & Hs2 & _ & Hb2). rewrite Ht1 in Hregs2, Hb2, Hrun2.
  assert (calls2 = calls) as -> by (by eapply Forall2_registers_functional).
  exists h1, h2, calls. rewrite !applyToExpress_run, Ht1, Hrun1, Hrun2.
  split_and!; try done.
  - by rewrite Hs2, Hs1, <- app_assoc.
  - by rewrite Hb2, Hb1, <- app_assoc.
Qed.

Lemma apply_twice_mounts_twice_witness :
  ∃ h1 h2 calls,
    applyToExpress 0 scenarioWithRoleCheck = (Normal 0, h1)
    ∧ applyToExpress 0 h1 = (Normal 0, h2)
    ∧ length calls = 2
    ∧ surfaces h2 !!! 0 = surfaces scenarioWithRoleCheck !!! 0 ++ calls ++ calls.
Proof.
  destruct (apply_twice_mounts_twice scenarioWithRoleCheck 0)
    as (h1 & h2 & calls & H1 & H2 & Hregs & _ & Hs & _).
  - repeat constructor; by eexists.
  - exists h1, h2, calls. split_and!; try done.
    by rewrite <- (Forall2_length _ _ _ Hregs).
Defined.

(** * The legacy RouteBuilder *)

Lemma RouteBuilder_resolve_run registry names chain :
  RouteBuilder.resolve registry names chain
  = match firstUnregistered registry names with
    | Some m => Throw (notRegistered m)
    | None => Normal (chain ++ resolved registry names)
    end.
Proof.
  revert chain. induction names as [|n names IH]; intros chain; simpl.
  - by rewrite app_nil_r.
  - unfold resolved. simpl. destruct (registry !! n) as [f|]; simpl; [| done].
    rewrite IH. destruct (firstUnregistered registry names); [done |].
    by rewrite <- app_assoc.
Qed.

(** X5: the legacy builder and the declarative router compute the same
    chain.  For any builder state and any (possibly omitted) config, the
    completion of [RouteBuilder.buildMiddlewareChain] is that of
    [buildMiddlewareChain] of a declarative router with the same defaults
    and registry, on the route that carries the same overrides: same
    chain, or the same [not registered] error. *)
Theorem legacy_builder_agrees b config m p hd rs surf log :
  RouteBuilder.buildMiddlewareChain config b
  = (buildMiddlewareChain (routeOfLegacyConfig m p hd config)
       {| this := routerOfLegacy b rs; surfaces := surf; chainBuilds := log |}).1.
Proof.
  rewrite buildMiddlewareChain_run. simpl.
  unfold RouteBuilder.buildMiddlewareChain, roleEntry, middlewareNames, activeRoles.
  destruct config as [[inc exc rls excr]|]; simpl.
  - rewrite RouteBuilder_resolve_run. simpl.
    destruct (firstUnregistered _ _); [done |]. simpl.
    destruct (match rls with Some r => r | None => _ end) as [|r rest]; simpl.
    + by rewrite app_nil_r.
    + destruct (RouteBuilder.middlewareRegistry b !! "roleCheck"); simpl; [done |].
      by rewrite app_nil_r.
  - rewrite RouteBuilder_resolve_run. simpl.
    destruct (firstUnregistered _ _); [done |]. simpl.
    destruct (RouteBuilder.defaultRoles b) as [|r rest]; simpl.
    + by rewrite app_nil_r.
    + destruct (RouteBuilder.middlewareRegistry b !! "roleCheck"); simpl; [done |].
      by rewrite app_nil_r.
Qed.

(** X6: [route(handler, config)] of the legacy builder throws exactly
    when a middleware name of the chain is unregistered; otherwise it
    returns a non-empty list that ends with the handler it was given,
    preceded by the chain.  An omitted config and a config with no field
    set give the same result: the callables of the default names, the role
    check on the default roles when they are non-empty and a factory is
    registered, then the handler. *)
Theorem legacy_route_ends_with_handler b handler config :
  let noOverrides :=
    Some {| RouteBuilder.include := None; RouteBuilder.exclude := None;
            RouteBuilder.roles := None; RouteBuilder.excludeRole := None |} in
  (∀ l, RouteBuilder.route handler config b = Normal l →
     last l = Some (Registered handler)
     ∧ RouteBuilder.buildMiddlewareChain config b = Normal (removelast l))
  ∧ (∀ e, RouteBuilder.route handler config b = Throw e ↔
          RouteBuilder.buildMiddlewareChain config b = Throw e)
  ∧ RouteBuilder.route handler noOverrides b = RouteBuilder.route handler None b
  ∧ (resolvable (RouteBuilder.middlewareRegistry b) (RouteBuilder.defaultMiddlewares b) →
     RouteBuilder.route handler None b
     = Normal (resolved (RouteBuilder.middlewareRegistry b) (RouteBuilder.defaultMiddlewares b)
               ++ match RouteBuilder.defaultRoles b,
                        RouteBuilder.middlewareRegistry b !! "roleCheck" with
                  | (_ :: _) as rs, Some factory => [Invoked factory rs]
                  | _, _ => []
                  end
               ++ [Registered handler])).
Proof.
  intros noOverrides. unfold RouteBuilder.route. split_and!.
  - intros l. destruct (RouteBuilder.buildMiddlewareChain config b) as [chain|e]; simpl;
      [| done].
    intros [= <-]. by rewrite last_snoc, removelast_last.
  - intros e. destruct (RouteBuilder.buildMiddlewareChain config b) as [chain|e']; simpl;
      [split; done | split; intros [= ->]; done].
  - done.
  - intros Hres%firstUnregistered_None.
    unfold RouteBuilder.buildMiddlewareChain. simpl.
    rewrite RouteBuilder_resolve_run, Hres. simpl.
    destruct (RouteBuilder.defaultRoles b) as [|r rest]; simpl; [done |].
    destruct (RouteBuilder.middlewareRegistry b !! "roleCheck"); simpl; [| done].
    by rewrite <- app_assoc.
Qed.

Lemma legacy_route_ends_with_handler_witness :
  RouteBuilder.route (FnRef 9) None
    (RouteBuilder.registerMiddleware "roleCheck" roleMiddleware
       (RouteBuilder.registerMiddleware "logging" logging
          (RouteBuilder.constructor (Some ["logging"]) (Some ["admin"]))))
  = Normal [Registered logging; Invoked roleMiddleware ["admin"]; Registered (FnRef 9)].
Proof.
  refine (proj2 (proj2 (proj2 (legacy_route_ends_with_handler
            (RouteBuilder.registerMiddleware "roleCheck" roleMiddleware
               (RouteBuilder.registerMiddleware "logging" logging
                  (RouteBuilder.constructor (Some ["logging"]) (Some ["admin"]))))
            (FnRef 9) None))) _).
  repeat constructor. by eexists.
Defined.

(** * The emitted class: handler resolution *)

Lemma split_nonempty sep s : split sep s ≠ [].
Proof.
  destruct s as [|c rest]; simpl; [done |].
  destruct (decide (c = sep)); [done |]. by destruct (split sep rest).
Qed.

(** A piece without separator in front of a separator is the first piece. *)
Lemma split_first sep piece rest :
  occursIn sep piece = false →
  split sep (piece +:+ String sep rest) = piece :: split sep rest.
Proof.
  induction piece as [|c piece IH]; simpl.
  - intros _. by rewrite decide_True.
  - intros [Hc Hpiece]%orb_false_elim. apply bool_decide_eq_false in Hc.
    rewrite decide_False by done. by rewrite IH.
Qed.

Lemma split_single sep piece :
  occursIn sep piece = false → split sep piece = [piece].
Proof.
  induction piece as [|c piece IH]; simpl; [done |].
  intros [Hc Hpiece]%orb_false_elim. apply bool_decide_eq_false in Hc.
  rewrite decide_False by done. by rewrite IH.
Qed.

(** No piece contains the separator. *)
Lemma split_pieces sep s : Forall (λ piece, occursIn sep piece = false) (split sep s).
Proof.
  induction s as [|c rest IH]; simpl; [by repeat constructor |].
  destruct (decide (c = sep)) as [-> | Hne].
  - by constructor.
  - destruct (split sep rest) as [|piece pieces].
    + constructor; [| done]. simpl. by rewrite bool_decide_eq_false_2.
    + apply Forall_cons in IH as [Hpiece Hpieces]. constructor; [| done].
      simpl. by rewrite bool_decide_eq_false_2.
Qed.

Lemma resolveHandler_run controllerRegistry handlerPath h :
  Emitted.resolveHandler controllerRegistry handlerPath h
  = (handlerOutcome controllerRegistry handlerPath, h).
Proof.
  unfold handlerOutcome, Emitted.resolveHandler.
  destruct handlerPath as [f| |p|]; try done.
  destruct (controllerRegistry !! _) as [controller|]; [| done].
  by destruct (truthy _).
Qed.

(** X7: registration and resolution of a controller method round-trip.
    After [registerController c o], for names [c] and [m] without a dot
    and a truthy property [o[m] = v], [resolveHandler('c.m')] returns
    [v] (function or not: the value is not inspected further) and leaves
    the heap alone; whatever follows a second dot is ignored. *)
Theorem resolveHandler_finds_registered_method ctrls c o m v extra h :
  occursIn "." c = false → occursIn "." m = false →
  o !! m = Some v → truthy v = true →
  let ctrls' := Emitted.registerController c o ctrls in
  Emitted.resolveHandler ctrls' (VString (c +:+ "." +:+ m)) h = (Normal v, h)
  ∧ Emitted.resolveHandler ctrls' (VString (c +:+ "." +:+ m +:+ "." +:+ extra)) h
    = (Normal v, h).
Proof.
  intros Hc Hm Hv Ht ctrls'.
  assert (∀ parts, Emitted.resolveHandler ctrls' (VString (c +:+ String "." parts)) h
                   = (Normal v, h) ∨ split "." parts !! 0%nat ≠ Some m) as Hgen.
  { intros parts. unfold Emitted.resolveHandler. rewrite split_first by done. simpl.
    unfold ctrls', Emitted.registerController. rewrite lookup_insert_eq.
    pose proof (split_nonempty "." parts) as Hne.
    destruct (split "." parts) as [|piece pieces]; [done |]. simpl.
    destruct (decide (piece = m)) as [-> | Hneq]; [| right; congruence].
    left. rewrite Hv. simpl. by rewrite Ht. }
  split.
  - destruct (Hgen m) as [H | H]; [exact H |].
    rewrite split_single in H by done. done.
  - destruct (Hgen (m +:+ String "." extra)) as [H | H]; [exact H |].
    rewrite split_first in H by done. done.
Qed.

Lemma resolveHandler_finds_registered_method_witness :
  Emitted.resolveHandler (Emitted.registerController "user" userController ∅)
    (VString "user.title") emptyHeap = (Normal (VString "users"), emptyHeap)
  ∧ Emitted.resolveHandler (Emitted.registerController "user" userController ∅)
      (VString "user.title.again") emptyHeap = (Normal (VString "users"), emptyHeap).
Proof.
  exact (resolveHandler_finds_registered_method ∅ "user" userController "title"
           (VString "users") "again" emptyHeap eq_refl eq_refl eq_refl eq_refl).
Defined.

Lemma handlerOutcome_insert_dotted ctrls c o v :
  occursIn "." c = true →
  handlerOutcome (Emitted.registerController c o ctrls) v = handlerOutcome ctrls v.
Proof.
  intros Hdot. unfold handlerOutcome, Emitted.resolveHandler, Emitted.registerController.
  destruct v as [f| |p|]; try done.
  pose proof (split_pieces "." p) as Hpieces.
  pose proof (split_nonempty "." p) as Hne.
  destruct (split "." p) as [|piece pieces]; [done |]. simpl.
  apply Forall_cons in Hpieces as [Hpiece _].
  rewrite lookup_insert_ne; [done |]. intros ->. congruence.
Qed.

(** X8: how [resolveHandler] fails, and what it cannot reach.  It never
    changes the heap.  A handler string without a dot names a controller
    and the method [undefined]: an unknown controller gives
    [Controller '<p>' not registered], a known one is read at the
    property [undefined].  A dotted handler whose first piece is unknown
    gives [Controller '<piece>' not registered].  A property that is
    absent or falsy gives [Method '<m>' not found in controller '<c>'].
    A controller registered under a name that contains a dot is never
    looked up: registering it changes no resolution. *)
Theorem resolveHandler_failures ctrls h :
  (∀ v, (Emitted.resolveHandler ctrls v h).2 = h)
  ∧ (∀ p, occursIn "." p = false →
       handlerOutcome ctrls (VString p)
       = match ctrls !! p with
         | None => Throw (Emitted.controllerNotRegistered p)
         | Some o =>
             if truthy (default VUndefined (o !! "undefined"))
             then Normal (default VUndefined (o !! "undefined"))
             else Throw (Emitted.methodNotFound "undefined" p)
         end)
  ∧ (∀ c rest, occursIn "." c = false → ctrls !! c = None →
       handlerOutcome ctrls (VString (c +:+ "." +:+ rest))
       = Throw (Emitted.controllerNotRegistered c))
  ∧ (∀ c m o, occursIn "." c = false → occursIn "." m = false →
       ctrls !! c = Some o → truthy (default VUndefined (o !! m)) = false →
       handlerOutcome ctrls (VString (c +:+ "." +:+ m))
       = Throw (Emitted.methodNotFound m c))
  ∧ (∀ c o v, occursIn "." c = true →
       handlerOutcome (Emitted.registerController c o ctrls) v = handlerOutcome ctrls v).
Proof.
  split_and!.
  - intros v. by rewrite resolveHandler_run.
  - intros p Hp. unfold handlerOutcome, Emitted.resolveHandler.
    rewrite split_single by done. simpl.
    destruct (ctrls !! p) as [o|]; [| done]. by destruct (truthy _).
  - intros c rest Hc Hnone. unfold handlerOutcome, Emitted.resolveHandler.
    change (c +:+ "." +:+ rest) with (c +:+ String "." rest).
    rewrite split_first by done. simpl. by rewrite Hnone.
  - intros c m o Hc Hm Ho Hfalsy. unfold handlerOutcome, Emitted.resolveHandler.
    change (c +:+ "." +:+ m) with (c +:+ String "." m).
    rewrite split_first, split_single by done. simpl. by rewrite Ho, Hfalsy.
  - intros c o v. apply handlerOutcome_insert_dotted.
Qed.

Lemma resolveHandler_failures_witness :
  handlerOutcome (Emitted.registerController "user" userController ∅) (VString "user")
  = Throw "Method 'undefined' not found in controller 'user'"
  ∧ handlerOutcome (Emitted.registerController "user" userController ∅)
      (VString "admin.list")
    = Throw "Controller 'admin' not registered"
  ∧ handlerOutcome (Emitted.registerController "user" userController ∅)
      (VString "user.blank")
    = Throw "Method 'blank' not found in controller 'user'"
  ∧ handlerOutcome (Emitted.registerController "api.v1" userController ∅)
      (VString "api.v1.list")
    = handlerOutcome ∅ (VString "api.v1.list").
Proof.
  destruct (resolveHandler_failures (Emitted.registerController "user" userController ∅)
              emptyHeap) as (_ & Hnodot & Hunknown & Hmethod & _).
  destruct (resolveHandler_failures ∅ emptyHeap) as (_ & _ & _ & _ & Hdotted).
  split_and!.
  - exact (Hnodot "user" eq_refl).
  - exact (Hunknown "admin" "list" eq_refl eq_refl).
  - exact (Hmethod "user" "blank" userController eq_refl eq_refl eq_refl eq_refl).
  - exact (Hdotted "api.v1" userController (VString "api.v1.list") eq_refl).
Defined.

(** * The emitted class: validate and apply *)

Lemma Emitted_validateRoutes_run ctrls t rs errs h :
  Emitted.validateRoutes ctrls t rs errs h
  = (Normal (errs ++ concat (emittedRouteErrors ctrls t <$> rs)), h).
Proof.
  revert errs. induction rs as [|route rest IH]; intros errs.
  - simpl. by rewrite app_nil_r.
  - rewrite fmap_cons. cbn [Emitted.validateRoutes concat].
    unfold mbind at 1, M_bind at 1, Emitted.checkHandler.
    rewrite resolveHandler_run. unfold emittedRouteErrors at 1.
    destruct (handlerOutcome ctrls (handler route)) as [hdl|message];
      rewrite IH, checkMiddlewares_run; unfold allMiddlewares;
      by rewrite <- ?app_assoc.
Qed.

Lemma Emitted_validate_run ctrls h :
  Emitted.validate ctrls h
  = (Normal {| valid := bool_decide
                 (concat (emittedRouteErrors ctrls (this h) <$> routes (config (this h))) = []);
               errors := concat (emittedRouteErrors ctrls (this h)
                                   <$> routes (config (this h))) |}, h).
Proof.
  unfold Emitted.validate, mbind, M_bind, getThis. simpl.
  rewrite Emitted_validateRoutes_run. simpl. unfold mret, M_ret. do 3 f_equal.
  apply bool_decide_ext. by rewrite length_zero_iff_nil.
Qed.

Lemma emittedRouteErrors_nil ctrls t route :
  emittedRouteErrors ctrls t route = [] ↔
  (∃ hdl, handlerOutcome ctrls (handler route) = Normal hdl)
  ∧ resolvable (middlewareRegistry t) (allMiddlewares (config t) route).
Proof.
  unfold emittedRouteErrors. rewrite <- unregistered_nil. split.
  - intros [H1 H2]%app_eq_nil. split.
    + destruct (handlerOutcome ctrls (handler route)) as [hdl|e]; [by exists hdl | done].
    + by apply fmap_nil_inv in H2.
  - intros [[hdl ->] ->]. done.
Qed.

Lemma emitted_valid_mountable ctrls t rs :
  concat (emittedRouteErrors ctrls t <$> rs) = [] → Forall (mountable ctrls t) rs.
Proof.
  rewrite concat_nil_Forall, Forall_fmap. intros Hall.
  eapply Forall_impl; [exact Hall |]. intros route [Hh Hres]%emittedRouteErrors_nil.
  split; [| done].
  eapply resolvable_subseteq; [apply middlewareNames_subseteq | done].
Qed.

Lemma Emitted_applyRoutes_cons ctrls router route rest h :
  Emitted.applyRoutes ctrls router (route :: rest) h =
  match (buildMiddlewareChain route h).1 with
  | Throw e => (Throw e, afterBuild route h)
  | Normal chain =>
      match handlerOutcome ctrls (handler route) with
      | Throw e => (Throw e, afterBuild route h)
      | Normal hdl =>
          Emitted.applyRoutes ctrls router rest
            {| this := this h;
               surfaces := <[router := surfaces h !!! router ++
                              [{| reg_method := toLowerCase (METHODS (method route));
                                  reg_path := path route; reg_chain := chain;
                                  reg_handler := hdl |}]]> (surfaces h);
               chainBuilds := chainBuilds h ++ [route] |}
      end
  end.
Proof.
  simpl. unfold mbind at 1, M_bind at 1.
  rewrite buildMiddlewareChain_run. simpl.
  destruct (firstUnregistered _ _); [done |].
  unfold mbind at 1, M_bind at 1. rewrite resolveHandler_run.
  by destruct (handlerOutcome ctrls (handler route)).
Qed.

Lemma mounted_step_resolved router h route chain hdl h' calls built :
  mounted router
    {| this := this h;
       surfaces := <[router := surfaces h !!! router ++
                      [{| reg_method := toLowerCase (METHODS (method route));
                          reg_path := path route; reg_chain := chain;
                          reg_handler := hdl |}]]> (surfaces h);
       chainBuilds := chainBuilds h ++ [route] |} h' calls built →
  mounted router h h'
    ({| reg_method := toLowerCase (METHODS (method route));
        reg_path := path route; reg_chain := chain;
        reg_handler := hdl |} :: calls) (route :: built).
Proof.
  unfold mounted. simpl. intros (Ht & Hs & Ho & Hb). split_and!.
  - done.
  - rewrite Hs. rewrite lookup_total_insert_eq. by rewrite <- app_assoc.
  - intros l Hl. rewrite Ho by done. by rewrite lookup_insert_ne.
  - rewrite Hb. by rewrite <- app_assoc.
Qed.

Ltac registers_resolved_head Hr Hh :=
  constructor; [| done];
  unfold registersResolved; simpl; split_and!; try done;
  let h0 := fresh "h" in
  let E := fresh "E" in
  intros h0 E; rewrite buildMiddlewareChain_run; simpl; rewrite E; by rewrite Hr.

Lemma Emitted_applyRoutes_ok ctrls router rs h :
  Forall (mountable ctrls (this h)) rs →
  ∃ h' calls,
    Emitted.applyRoutes ctrls router rs h = (Normal tt, h')
    ∧ mounted router h h' calls rs
    ∧ Forall2 (registersResolved ctrls (this h)) rs calls.
Proof.
  intros Hall. revert h Hall.
  induction rs as [|route rest IH]; intros h Hall.
  - exists h, []. split_and!; [done | apply mounted_refl | constructor].
  - apply Forall_cons in Hall as [[Hr [hdl Hh]] Hrest].
    rewrite Emitted_applyRoutes_cons.
    pose proof (buildMiddlewareChain_run route h) as Hrun.
    apply firstUnregistered_None in Hr. rewrite Hr in Hrun.
    rewrite Hrun, Hh. simpl.
    match goal with |- context [Emitted.applyRoutes ctrls router rest ?h1] =>
      destruct (IH h1) as (h' & calls & Happ & Hm & Hregs); [done |] end.
    eexists h', (_ :: calls). split_and!.
    + exact Happ.
    + by apply mounted_step_resolved.
    + registers_resolved_head Hr Hh.
Qed.

(** The loop stops at the first route that is not mountable; when it is
    the handler that fails, the chain of that route was built before. *)
Lemma Emitted_applyRoutes_handler_throw ctrls router pre route post e h :
  Forall (mountable ctrls (this h)) pre →
  buildable (this h) route →
  handlerOutcome ctrls (handler route) = Throw e →
  ∃ h' calls,
    Emitted.applyRoutes ctrls router (pre ++ route :: post) h = (Throw e, h')
    ∧ mounted router h h' calls (pre ++ [route])
    ∧ Forall2 (registersResolved ctrls (this h)) pre calls.
Proof.
  intros Hpre Hb He. revert h Hpre Hb.
  induction pre as [|r pre IH]; intros h Hpre Hb.
  - simpl app. rewrite Emitted_applyRoutes_cons, buildMiddlewareChain_run. simpl.
    apply firstUnregistered_None in Hb. rewrite Hb, He.
    eexists _, []. split_and!; [done | | constructor].
    unfold mounted, afterBuild. simpl. by rewrite app_nil_r.
  - apply Forall_cons in Hpre as [[Hr [hdl Hh]] Hrest].
    simpl app. rewrite Emitted_applyRoutes_cons.
    pose proof (buildMiddlewareChain_run r h) as Hrun.
    apply firstUnregistered_None in Hr. rewrite Hr in Hrun.
    rewrite Hrun, Hh. simpl.
    match goal with |- context [Emitted.applyRoutes ctrls router _ ?h1] =>
      destruct (IH h1) as (h' & calls & Happ & Hmt & Hregs); [done | done |] end.
    eexists h', (_ :: calls). split_and!.
    + exact Happ.
    + by apply mounted_step_resolved.
    + registers_resolved_head Hr Hh.
Qed.

Lemma Emitted_applyToExpress_run ctrls router h :
  Emitted.applyToExpress ctrls router h =
  match Emitted.applyRoutes ctrls router (routes (config (this h))) h with
  | (Normal _, h') => (Normal router, h')
  | (Throw e, h') => (Throw e, h')
  end.
Proof.
  unfold Emitted.applyToExpress, mbind, M_bind, getThis. simpl.
  by destruct (Emitted.applyRoutes _ _ _ h) as [[[]|e] h'].
Qed.

(** X9: for the emitted class, validation really is the precondition of
    mounting.  [validate] always returns and leaves the heap alone; it
    reports [valid] exactly when, for every route, the handler resolves
    and every name of [defaultMiddlewares ++ enabled] is registered; and
    for a config it reports valid, [applyToExpress] and [applyToHono]
    return the surface after mounting every route in order, each with its
    lower-cased method, its path, the resolved handler and the chain the
    builder returns. *)
Theorem emitted_valid_config_mounts ctrls h router :
  ∃ report,
    Emitted.validate ctrls h = (Normal report, h)
    ∧ (valid report = true ↔
       Forall (λ route,
                 (∃ hdl, handlerOutcome ctrls (handler route) = Normal hdl)
                 ∧ resolvable (middlewareRegistry (this h))
                     (allMiddlewares (config (this h)) route))
              (routes (config (this h))))
    ∧ (valid report = true →
       ∃ h' calls,
         Emitted.applyToExpress ctrls router h = (Normal router, h')
         ∧ Emitted.applyToHono ctrls router h = (Normal router, h')
         ∧ mounted router h h' calls (routes (config (this h)))
         ∧ Forall2 (registersResolved ctrls (this h)) (routes (config (this h))) calls).
Proof.
  rewrite Emitted_validate_run. eexists. split; [done |]. simpl. split.
  - rewrite bool_decide_eq_true, concat_nil_Forall, Forall_fmap.
    apply Forall_proper; [| done]. intros route. apply emittedRouteErrors_nil.
  - intros Hvalid%bool_decide_eq_true%emitted_valid_mountable.
    destruct (Emitted_applyRoutes_ok ctrls router _ h Hvalid)
      as (h' & calls & Hrun & Hm & Hregs).
    exists h', calls.
    change (Emitted.applyToHono ctrls router h) with (Emitted.applyToExpress ctrls router h).
    rewrite Emitted_applyToExpress_run, Hrun. done.
Qed.

Lemma emitted_valid_config_mounts_witness :
  ∃ h',
    Emitted.applyToExpress userControllers 3 (emittedRouter [listUsers]) = (Normal 3, h')
    ∧ surfaces h' !!! 3
      = [{| reg_method := "get"; reg_path := "/users";
            reg_chain := [Registered logging]; reg_handler := VFunction (FnRef 5) |}].
Proof.
  destruct (emitted_valid_config_mounts userControllers (emittedRouter [listUsers]) 3)
    as (report & Hrun & _ & Happly).
  injection Hrun as <-.
  destruct (Happly eq_refl) as (h' & calls & Hexpress & _ & _ & _).
  exists h'. split; [exact Hexpress |].
  vm_compute in Hexpress. injection Hexpress as <-. reflexivity.
Defined.

(** X10: the emitted apply step resolves the handler after building the
    chain and before the call.  At the first route whose chain builds but
    whose handler does not resolve, it throws the resolution error; the
    routes before it stay mounted, the failing route is not mounted, and
    its chain was built for nothing. *)
Theorem emitted_apply_stops_at_unresolved_handler ctrls h router pre route post e :
  routes (config (this h)) = pre ++ route :: post →
  Forall (mountable ctrls (this h)) pre →
  buildable (this h) route →
  handlerOutcome ctrls (handler route) = Throw e →
  ∃ h' calls,
    Emitted.applyToExpress ctrls router h = (Throw e, h')
    ∧ surfaces h' !!! router = surfaces h !!! router ++ calls
    ∧ Forall2 (registersResolved ctrls (this h)) pre calls
    ∧ chainBuilds h' = chainBuilds h ++ pre ++ [route].
Proof.
  intros Hroutes Hpre Hb He.
  destruct (Emitted_applyRoutes_handler_throw ctrls router pre route post e h Hpre Hb He)
    as (h' & calls & Hrun & (_ & Hs & _ & Hbuilds) & Hregs).
  exists h', calls. rewrite Emitted_applyToExpress_run, Hroutes, Hrun. done.
Qed.

Lemma emitted_apply_stops_at_unresolved_handler_witness :
  ∃ h' calls,
    Emitted.applyToExpress userControllers 3 (emittedRouter [listUsers; createOrder])
    = (Throw "Controller 'order' not registered", h')
    ∧ surfaces h' !!! 3 = surfaces (emittedRouter [listUsers; createOrder]) !!! 3 ++ calls
    ∧ Forall2 (registersResolved userControllers (this (emittedRouter [listUsers; createOrder])))
        [listUsers] calls
    ∧ chainBuilds h' = [listUsers; createOrder].
Proof.
  refine (emitted_apply_stops_at_unresolved_handler userControllers
            (emittedRouter [listUsers; createOrder]) 3 [listUsers] createOrder []
            "Controller 'order' not registered" eq_refl _ _ eq_refl).
  - repeat constructor; [by eexists | by eexists].
  - repeat constructor. by eexists.
Defined.

(** * Middleware emitted by the Express generator *)

(** X15: [authMiddleware] reads only the second space-separated piece of
    the [Authorization] header.  The request is passed on, with
    [req.user] set to the decoded token, exactly when that piece exists,
    is non-empty and verifies; the first piece (the scheme) is never
    looked at, so two headers that differ only in it are treated alike;
    a missing header or a header without a space is answered with
    [401 No token provided]. *)
Theorem authMiddleware_reads_second_piece {D} (verify : string → option D) :
  (∀ authorization decoded,
     Middlewares.authMiddleware verify authorization = Middlewares.Authenticated decoded
     ↔ ∃ a token, authorization = Some a ∧ split " " a !! 1%nat = Some token
                  ∧ token ≠ EmptyString ∧ verify token = Some decoded)
  ∧ (∀ scheme1 scheme2 rest,
       occursIn " " scheme1 = false → occursIn " " scheme2 = false →
       Middlewares.authMiddleware verify (Some (scheme1 +:+ " " +:+ rest))
       = Middlewares.authMiddleware verify (Some (scheme2 +:+ " " +:+ rest)))
  ∧ Middlewares.authMiddleware verify None = Middlewares.Rejected 401 "No token provided"
  ∧ (∀ a, occursIn " " a = false →
       Middlewares.authMiddleware verify (Some a)
       = Middlewares.Rejected 401 "No token provided").
Proof.
  split_and!.
  - intros authorization decoded. unfold Middlewares.authMiddleware, Middlewares.bearerToken.
    split.
    + destruct authorization as [a|]; simpl; [| done].
      destruct (split " " a !! 1%nat) as [token|] eqn:E; [| done].
      case_bool_decide as Hempty; [done |].
      destruct (verify token) as [d|] eqn:Hv; [| done].
      intros [= <-]. by exists a, token.
    + intros (a & token & -> & Htoken & Hne & Hv). simpl. rewrite Htoken.
      rewrite bool_decide_eq_false_2 by done. by rewrite Hv.
  - intros scheme1 scheme2 rest H1 H2.
    unfold Middlewares.authMiddleware, Middlewares.bearerToken. simpl.
    change (scheme1 +:+ " " +:+ rest) with (scheme1 +:+ String " " rest).
    change (scheme2 +:+ " " +:+ rest) with (scheme2 +:+ String " " rest).
    by rewrite !split_first.
  - done.
  - intros a Ha. unfold Middlewares.authMiddleware, Middlewares.bearerToken. simpl.
    by rewrite split_single.
Qed.

Lemma authMiddleware_reads_second_piece_witness :
  Middlewares.authMiddleware acceptGood (Some "Bearer good") = Middlewares.Authenticated 7
  ∧ Middlewares.authMiddleware acceptGood (Some "Basic good")
    = Middlewares.authMiddleware acceptGood (Some "Bearer good")
  ∧ Middlewares.authMiddleware acceptGood (Some "good")
    = Middlewares.Rejected 401 "No token provided".
Proof.
  destruct (authMiddleware_reads_second_piece acceptGood) as (Hiff & Hscheme & _ & Hnospace).
  split_and!.
  - apply Hiff. by exists "Bearer good", "good".
  - exact (Hscheme "Basic" "Bearer" "good" eq_refl eq_refl).
  - exact (Hnospace "good" eq_refl).
Defined.

(** X16: [roleMiddleware(roles)] passes a request on exactly when it
    carries a user whose role is one of [roles]; every other request,
    in particular every anonymous one and every request when [roles] is
    empty, is answered with [403 Insufficient permissions]; listing more
    roles never turns a passing request away. *)
Theorem roleMiddleware_passes_listed_roles roles user :
  (Middlewares.roleMiddleware roles user = CallNext
   ↔ ∃ r, user = Some {| Middlewares.role := Some r |} ∧ r ∈ roles)
  ∧ (Middlewares.roleMiddleware roles user = CallNext
     ∨ Middlewares.roleMiddleware roles user = Respond 403 "Insufficient permissions")
  ∧ Middlewares.roleMiddleware [] user = Respond 403 "Insufficient permissions"
  ∧ Middlewares.roleMiddleware roles None = Respond 403 "Insufficient permissions"
  ∧ (∀ more, Middlewares.roleMiddleware roles user = CallNext →
       Middlewares.roleMiddleware (roles ++ more) user = CallNext).
Proof.
  assert (∀ rs, Middlewares.roleMiddleware rs user = CallNext
                ↔ ∃ r, user = Some {| Middlewares.role := Some r |} ∧ r ∈ rs) as Hiff.
  { intros rs. unfold Middlewares.roleMiddleware. split.
    - destruct user as [[[r|]]|]; simpl; [| done | done].
      case_bool_decide; [| done]. intros _. by exists r.
    - intros (r & -> & Hr). simpl. by rewrite bool_decide_eq_true_2. }
  split_and!.
  - apply Hiff.
  - unfold Middlewares.roleMiddleware. destruct user as [[[r|]]|]; simpl; [| by right ..].
    case_bool_decide; [by left | by right].
  - unfold Middlewares.roleMiddleware. by destruct user as [[[r|]]|].
  - done.
  - intros more (r & -> & Hr)%Hiff. apply Hiff. exists r. split; [done |].
    apply elem_of_app. by left.
Qed.

Lemma roleMiddleware_passes_listed_roles_witness :
  Middlewares.roleMiddleware ["admin"] (Some {| Middlewares.role := Some "admin" |}) = CallNext
  ∧ Middlewares.roleMiddleware (["admin"] ++ ["editor"])
      (Some {| Middlewares.role := Some "admin" |}) = CallNext.
Proof.
  split; [reflexivity |].
  exact (proj2 (proj2 (proj2 (proj2
           (roleMiddleware_passes_listed_roles ["admin"]
              (Some {| Middlewares.role := Some "admin" |})))))
           ["editor"] eq_refl).
Defined.





